(** * GPIB control framework: the instrument panel and the client mutation hooks

    A shallow embedding of the React front end:
    - [InstrumentPanel] (component state, its effect, its handlers),
    - [useInstrumentActions] (addInstrument / updateInstrument / deleteInstrument),
    - the option lists and the address input of [InstrumentSettings].

    Conventions.
    - [Math.random()] is an input: the handlers take the number it returns as
      an argument [r], a rational with [0 <= r < 1].  Numbers are the
      rationals that binary64 values denote; the product [r * 10] is the
      exact product rounded to the nearest binary64 value, as the
      multiplication of two Numbers is.
    - The clock ([Date.now()], [new Date()]) is an input as well: a stream of
      readings consumed one per call.
    - The HTTP server is an input: a function from requests to replies. *)

From Stdlib Require Import QArith Qround Qabs Qpower ZArith Lia Lqa Ascii String.
From stdpp Require Import base strings gmap list option.

Local Open Scope Z_scope.

(** ** JavaScript numbers: binary64 arithmetic and [Number.prototype.toFixed] *)

Module Js.

(** *** Rounding to binary64

    A finite Number is an IEEE 754 binary64 value: an integer of at most 53
    bits times a power of two that is at least [2^-1074].  The result of an
    arithmetic operation is the exact result rounded to the nearest such
    value, to the one with the even significand when two are equally near. *)

(** The integer nearest to [y], the even one of two. *)
Definition roundHalfEven (y : Q) : Z :=
  let f := Qfloor y in
  match (y - inject_Z f ?= 1 # 2)%Q with
  | Lt => f
  | Gt => f + 1
  | Eq => if Z.even f then f else f + 1
  end.

(** [2^k], for [k] of either sign. *)
Definition pow2 (k : Z) : Q :=
  if 0 <=? k then inject_Z (2 ^ k) else (1 / inject_Z (2 ^ (- k)))%Q.

(** For [x > 0], the exponent [e] with [2^e <= x < 2^(e+1)]: the difference
    of the bit lengths of numerator and denominator, or one less. *)
Definition binade (x : Q) : Z :=
  let e := Z.log2 (Qnum x) - Z.log2 (Zpos (Qden x)) in
  if Qle_bool (pow2 e) x then e else e - 1.

(** The exponent of the spacing of the binary64 values around [x > 0]: 53
    significant bits, and [2^-1074] the spacing of the subnormal ones. *)
Definition ulpExponent (x : Q) : Z := Z.max (binade x - 52) (-1074).

Definition roundPositive (x : Q) : Q :=
  let k := ulpExponent x in (inject_Z (roundHalfEven (x / pow2 k)) * pow2 k)%Q.

(** The binary64 value nearest to [x], for [x] below the overflow threshold
    [2^1024] in absolute value (the panel multiplies a number below 1 by
    10). *)
Definition roundDouble (x : Q) : Q :=
  match (x ?= 0)%Q with
  | Eq => 0%Q
  | Gt => roundPositive x
  | Lt => (- roundPositive (- x))%Q
  end.

(** [x * y] on Numbers. *)
Definition times (x y : Q) : Q := roundDouble (x * y).

(** [x] is a binary64 value. *)
Definition isDouble (x : Q) : Prop := (roundDouble x == x)%Q.

(** *** Numbers to text *)

(** A character is a decimal digit. *)
Definition isDigit (c : ascii) : bool :=
  let n := nat_of_ascii c in (48 <=? n)%nat && (n <=? 57)%nat.

Definition digitChar (d : Z) : ascii := ascii_of_nat (48 + Z.to_nat (d mod 10)).

(** Decimal digits of a non-negative integer, no leading zero ("0" for 0):
    the digits are produced from the last one, in front of [suffix]. *)
Fixpoint digitsFrom (fuel : nat) (n : Z) (suffix : string) : string :=
  match fuel with
  | O => suffix
  | S fuel' =>
      if n <? 10 then String (digitChar n) suffix
      else digitsFrom fuel' (n / 10) (String (digitChar n) suffix)
  end.

Definition intDigits (n : Z) : string :=
  digitsFrom (S (Z.to_nat (Z.log2 n))) n EmptyString.

(** The last [f] decimal digits of [n], most significant first. *)
Fixpoint fracDigits (f : nat) (n : Z) : string :=
  match f with
  | O => EmptyString
  | S f' => fracDigits f' (n / 10) +:+ String (digitChar n) EmptyString
  end.

(** [roundScaled f x]: the integer [n] for which [n / 10^f - x] is as close to
    zero as possible, the larger one when there are two (step 10.a of
    toFixed), for [x >= 0]. *)
Definition roundScaled (f : nat) (x : Q) : Z :=
  Qfloor (x * inject_Z (10 ^ Z.of_nat f) + (1 # 2)).

(** [renderFixed f n]: the digits of [n / 10^f], then, when [f > 0], a
    point and the last [f] digits of [n].  This is what steps 10.b-10.c of
    toFixed produce: the digits of [n], padded with zeros on the left to
    [f + 1] digits, with a point before the last [f] of them. *)
Definition renderFixed (f : nat) (n : Z) : string :=
  intDigits (n / 10 ^ Z.of_nat f) +:+
  match f with
  | O => EmptyString
  | S _ => String "."%char (fracDigits f n)
  end.

(** [x.toFixed(f)] for [|x| < 10^21] (above that JavaScript switches to
    exponent notation; the panel only formats numbers below 10). *)
Definition toFixed (f : nat) (x : Q) : string :=
  (if Qlt_le_dec x 0 then "-" else "") +:+ renderFixed f (roundScaled f (Qabs x)).

(** Reading a number back.  [splitDigits s] is the longest prefix of
    digits of [s] and what follows it; [digitsValue acc s] is the number
    the digits [s] denote after the digits already read as [acc]. *)
Fixpoint splitDigits (s : string) : string * string :=
  match s with
  | EmptyString => (EmptyString, EmptyString)
  | String c rest =>
      if isDigit c then let '(ds, tl) := splitDigits rest in (String c ds, tl)
      else (EmptyString, s)
  end.

Definition digitValue (c : ascii) : Z := Z.of_nat (nat_of_ascii c) - 48.

Fixpoint digitsValue (acc : Z) (s : string) : Z :=
  match s with
  | EmptyString => acc
  | String c rest => digitsValue (10 * acc + digitValue c) rest
  end.

Definition allDigits (s : string) : bool := forallb isDigit (list_ascii_of_string s).

Definition isEmpty (s : string) : bool :=
  match s with EmptyString => true | _ => false end.

(** The number a fixed-point string denotes ([Number(s)] on the strings
    [toFixed] produces): one or more digits, then optionally a point and
    one or more digits. *)
Definition parseFixed (s : string) : option Q :=
  let '(ip, rest) := splitDigits s in
  if isEmpty ip then None
  else
    match rest with
    | EmptyString => Some (inject_Z (digitsValue 0 ip))
    | String "."%char fr =>
        if allDigits fr && negb (isEmpty fr) then
          Some (inject_Z (digitsValue 0 ip)
                + inject_Z (digitsValue 0 fr)
                  / inject_Z (10 ^ Z.of_nat (String.length fr)))%Q
        else None
    | _ => None
    end.

(** A whole number written in digits only. *)
Definition parseWhole (s : string) : option Z :=
  if allDigits s && negb (isEmpty s) then Some (digitsValue 0 s) else None.

(** A fixed-point string with exactly [k] digits after the point: one or
    more digits, a point, [k] digits. *)
Definition hasDecimals (k : nat) (s : string) : bool :=
  let '(ip, rest) := splitDigits s in
  negb (isEmpty ip) &&
  match rest with
  | String "."%char fr => allDigits fr && (String.length fr =? k)%nat
  | _ => false
  end.

(** ** JavaScript values and objects

    The values that occur in instrument records.  [VIso ms] is the string
    [new Date(ms).toISOString()] (the ISO format shows the milliseconds, so
    two such strings are equal exactly when the instants are).  An object is
    a finite map from property names to values. *)
Inductive Value : Type :=
  | VUndefined
  | VBool (b : bool)
  | VNum (n : Z)
  | VStr (s : string)
  | VIso (ms : Z).

Abbreviation Obj := (gmap string Value).

(** [a.k], [undefined] when the property is missing. *)
Definition prop (k : string) (a : Obj) : Value := default VUndefined (a !! k).

End Js.

(** ** The instrument panel (InstrumentPanel) *)

Module Panel.
Import Js.

(** [toast.success(msg)] and [toast.error(msg)]. *)
Inductive Toast : Type :=
  | toast_success (msg : string)
  | toast_error (msg : string).

(** The component's [useState] cells. *)
Record PanelState : Type := mkPanelState {
  isConnected : bool;
  currentValue : string;
  isMinimized : bool;
  position : Z * Z
}.

Definition setIsConnected (b : bool) (s : PanelState) : PanelState :=
  mkPanelState b (currentValue s) (isMinimized s) (position s).

Definition setCurrentValue (v : string) (s : PanelState) : PanelState :=
  mkPanelState (isConnected s) v (isMinimized s) (position s).

(** [useState(false)], [useState('0.000')], [useState(false)],
    [useState({ x: 0, y: 0 })]. *)
Definition initialState : PanelState := mkPanelState false "0.000" false (0, 0).

(** The literal [0.3] is the double nearest to 3/10. *)
Definition lit_0_3 : Q := 5404319552844595 # 18014398509481984.

(** [Math.random() > 0.3], with [r] the number drawn. *)
Definition connectedDraw (r : Q) : bool := negb (Qle_bool r lit_0_3).

(** [Math.random() * 10], with [r] the number drawn. *)
Definition readingProduct (r : Q) : Q := Js.times r 10.

(** [(Math.random() * 10).toFixed(3)], with [r] the number drawn. *)
Definition randomReading (r : Q) : string := Js.toFixed 3 (readingProduct r).

(** The body of the effect, first statement: [setIsConnected(Math.random() > 0.3)]. *)
Definition effectBody (r : Q) (s : PanelState) : PanelState :=
  setIsConnected (connectedDraw r) s.

(** The interval callback; [closure] is the [isConnected] of the render
    whose effect installed the interval.  [Math.random] is only called in
    the connected branch. *)
Definition intervalCallback (closure : bool) (r : Q) (s : PanelState) : PanelState :=
  if closure then setCurrentValue (randomReading r) s else s.

(** The handlers are closures over the component's prop [instrument], the
    record of the instrument the panel shows; it is an argument here. *)

(** [handleConnect]: one handler behind the Connect / Disconnect button. *)
Definition handleConnect (instrument : Obj) (s : PanelState) : PanelState * list Toast :=
  (setIsConnected (negb (isConnected s)) s,
   [toast_success (if isConnected s then "Disconnected" else "Connected")]).

(** [handleMeasure]. *)
Definition handleMeasure (instrument : Obj) (r : Q) (s : PanelState)
  : PanelState * list Toast :=
  if negb (isConnected s) then (s, [toast_error "Instrument not connected"])
  else (setCurrentValue (randomReading r) s, [toast_success "Measurement taken"]).

(** What the display section renders: the value and the unit next to it. *)
Definition displayUnit (instrument : Obj) : string := "V DC".
Definition display (instrument : Obj) (s : PanelState) : string * string :=
  (currentValue s, displayUnit instrument).


(** *** Scheduling

    The effect has dependency list [[isConnected]]: it runs after the first
    render and after every render in which [isConnected] differs from the
    previous one, and React runs a due effect before it handles the next
    event.  A mounted panel is its state, whether the effect is due, and
    the [isConnected] captured by the interval that is installed. *)
Record Mounted : Type := mkMounted {
  state : PanelState;
  effectDue : bool;
  closure : bool
}.

Definition mount : Mounted := mkMounted initialState true false.

Inductive Event : Type :=
  | RunEffect (r : Q)        (* the due effect runs; r is its draw *)
  | Connect                  (* handleConnect is invoked *)
  | Measure (r : Q)          (* handleMeasure is invoked *)
  | Tick (r : Q).            (* the 2000 ms interval fires *)

Definition step (instrument : Obj) (p : Mounted) (e : Event)
  : option (Mounted * list Toast) :=
  match e with
  | RunEffect r =>
      if effectDue p then
        let c := isConnected (state p) in
        let s' := effectBody r (state p) in
        Some (mkMounted s' (negb (eqb (isConnected s') c)) c, [])
      else None
  | Connect =>
      if effectDue p then None
      else let '(s', ts) := handleConnect instrument (state p) in
           Some (mkMounted s' (negb (eqb (isConnected s') (isConnected (state p))))
                           (closure p), ts)
  | Measure r =>
      if effectDue p then None
      else let '(s', ts) := handleMeasure instrument r (state p) in
           Some (mkMounted s' false (closure p), ts)
  | Tick r =>
      if effectDue p then None
      else Some (mkMounted (intervalCallback (closure p) r (state p)) false (closure p), [])
  end.

(** Run a sequence of events from a mounted panel, collecting the toasts. *)
Fixpoint run (instrument : Obj) (p : Mounted) (es : list Event)
  : option (Mounted * list Toast) :=
  match es with
  | [] => Some (p, [])
  | e :: es' =>
      match step instrument p e with
      | None => None
      | Some (p', ts) =>
          match run instrument p' es' with
          | None => None
          | Some (p'', ts') => Some (p'', ts ++ ts')
          end
      end
  end.

(** *** Terms used in the properties *)

(** What an invocation reports to the user: its first toast. *)
Definition reports (out : PanelState * list Toast) : option Toast := head (snd out).

(** The failure a measure reports on a session that is not connected. *)
Definition NotConnected : Toast := toast_error "Instrument not connected".

Definition isSuccess (t : option Toast) : bool :=
  match t with Some (toast_success _) => true | _ => false end.

Definition Connected (s : PanelState) : Prop := isConnected s = true.
Definition Disconnected (s : PanelState) : Prop := isConnected s = false.

(** A session that is connected, everything else as initially. *)
Definition connectedState : PanelState := setIsConnected true initialState.

(** The events of a trace that draw a number draw one in [[0, 1)]. *)
Definition drawOf (e : Event) : option Q :=
  match e with
  | RunEffect r | Measure r | Tick r => Some r
  | Connect => None
  end.
Definition unitDraw (r : Q) : Prop := (0 <= r)%Q ∧ (r < 1)%Q.
Definition unitDraws (es : list Event) : Prop :=
  Forall (fun e => from_option unitDraw True (drawOf e)) es.

Definition isConnectEvent (e : Event) : bool :=
  match e with Connect => true | _ => false end.
Definition isEffectEvent (e : Event) : bool :=
  match e with RunEffect _ => true | _ => false end.

(** When no effect is due, the installed interval sees the current
    [isConnected]. *)
Definition closureCurrent (p : Mounted) : Prop :=
  effectDue p = false → closure p = isConnected (state p).

(** A displayed value is well formed when it has three decimals and
    denotes a number of the closed interval [[0, 10]]. *)
Definition displayable (v : string) : Prop :=
  hasDecimals 3 v = true ∧ ∃ q, parseFixed v = Some q ∧ (0 <= q)%Q ∧ (q <= 10)%Q.

End Panel.

(** ** The settings form (InstrumentSettings) *)

Module Settings.
Import Js.

(** The [<option value=...>] lists of the four selects. *)
Definition typeOptions : list string :=
  ["34401A"; "34410A"; "34461A"; "34465A"; "custom"].
Definition measurementTypeOptions : list string :=
  ["DC_VOLTAGE"; "AC_VOLTAGE"; "DC_CURRENT"; "AC_CURRENT"; "RESISTANCE";
   "FREQUENCY"; "PERIOD"].
Definition rangeOptions : list string := ["AUTO"; "0.1"; "1"; "10"; "100"; "1000"].
Definition resolutionOptions : list string := ["4.5"; "5.5"; "6.5"; "7.5"].

(** The address input: [type="number" min="0" max="30"]. *)
Definition gpibAddressMin : Z := 0.
Definition gpibAddressMax : Z := 30.

(** The initial [formData]. *)
Definition defaultFormData : Obj :=
  <["name" := VStr ""]> (<["type" := VStr "34401A"]> (<["gpibAddress" := VStr "22"]> (
  <["description" := VStr ""]> (<["autoConnect" := VBool false]> (
  <["measurementType" := VStr "DC_VOLTAGE"]> (<["range" := VStr "AUTO"]> (
  <["resolution" := VStr "6.5"]> ∅))))))).

Definition oneOf (options : list string) (v : Value) : bool :=
  match v with
  | VStr s => existsb (String.eqb s) options
  | _ => false
  end.

(** An address is a whole number between the input's [min] and [max],
    held as a number or as the text of the input. *)
Definition addressInRange (v : Value) : bool :=
  match v with
  | VNum n => (gpibAddressMin <=? n) && (n <=? gpibAddressMax)
  | VStr s =>
      match parseWhole s with
      | Some n => (gpibAddressMin <=? n) && (n <=? gpibAddressMax)
      | None => false
      end
  | _ => false
  end.

(** The constraints the form's controls put on a payload: the address
    range of the input and the option lists of the selects. *)
Definition meetsConstraints (fields : Obj) : bool :=
  addressInRange (prop "gpibAddress" fields) &&
  oneOf typeOptions (prop "type" fields) &&
  oneOf measurementTypeOptions (prop "measurementType" fields) &&
  oneOf rangeOptions (prop "range" fields) &&
  oneOf resolutionOptions (prop "resolution" fields).

(** The numeric limit a range option stands for ("0.1V" ... "1000V");
    none for "AUTO". *)
Definition rangeLimit (v : Value) : option Q :=
  match v with
  | VStr s =>
      if String.eqb s "0.1" then Some (1 # 10)
      else if String.eqb s "1" then Some 1%Q
      else if String.eqb s "10" then Some 10%Q
      else if String.eqb s "100" then Some 100%Q
      else if String.eqb s "1000" then Some 1000%Q
      else None
  | _ => None
  end.

End Settings.

(** ** The mutation hooks (useInstrumentActions) *)

Module Client.
Import Js Settings.

(** *** The clock *)

(** Successive readings of the clock, in milliseconds since the epoch. *)
Definition Clock : Type := nat → Z.

(** A computation that reads the clock. *)
Definition Timed (A : Type) : Type := Clock → A * Clock.

#[global] Instance Timed_ret : MRet Timed := fun A a c => (a, c).
#[global] Instance Timed_bind : MBind Timed :=
  fun A B k m c => let '(a, c') := m c in k a c'.
(** [Date.now()] / [new Date()]: take the next reading. *)
Definition now : Timed Z := fun c => (c O, fun n => c (S n)).

(** A clock given by its first readings, constant afterwards. *)
Fixpoint clockOf (readings : list Z) (last : Z) : Clock :=
  fun n =>
    match readings, n with
    | [], _ => last
    | t :: _, O => t
    | _ :: ts, S n' => clockOf ts last n'
    end.

(** *** HTTP *)

Inductive Method : Type := GET | POST | PUT | DELETE.

(** [`${API_BASE_URL}/api/instruments`] and [`${API_BASE_URL}/api/instruments/${id}`]. *)
Inductive Path : Type :=
  | Instruments
  | InstrumentAt (id : Value).

Record Request : Type := mkRequest {
  method : Method;
  path : Path;
  body : option Obj
}.

(** What the [catch] clauses read of an axios error: [error.code] and
    [error.response?.status]. *)
Record AxiosError : Type := mkAxiosError {
  code : option string;
  status : option Z
}.

(** [response.data]. *)
Inductive Data : Type :=
  | DObj (o : Obj)
  | DList (l : list Obj)
  | DNone.

Inductive Reply : Type :=
  | Response (data : Data)
  | Failure (error : AxiosError).

Definition Server : Type := Request → Reply.

(** The outcome of an [async] function. *)
Inductive Promise (A : Type) : Type :=
  | Resolved (a : A)
  | Rejected (error : AxiosError).
Arguments Resolved {A} a.
Arguments Rejected {A} error.

(** [error.code === 'ERR_NETWORK' || error.response?.status === 404] *)
Definition demoFallback (error : AxiosError) : bool :=
  bool_decide (code error = Some "ERR_NETWORK") || bool_decide (status error = Some 404).

(** [{ k: v, ...a }]: the properties of [a] win. *)
Definition spreadOver (k : string) (v : Value) (a : Obj) : Obj := a ∪ {[ k := v ]}.

(** The requests the three mutations send: [axios.post(url, instrumentData)],
    [axios.put(url/id, instrumentData)] with [{ id, ...instrumentData }] the
    argument, and [axios.delete(url/id)]. *)
Definition createRequest (instrumentData : Obj) : Request :=
  mkRequest POST Instruments (Some instrumentData).
Definition updateRequest (arg : Obj) : Request :=
  mkRequest PUT (InstrumentAt (prop "id" arg)) (Some (delete "id" arg)).
Definition deleteRequest (id : Value) : Request :=
  mkRequest DELETE (InstrumentAt id) None.

(** [addInstrument]'s mutation function. *)
Definition addInstrument (http : Server) (instrumentData : Obj) : Timed (Promise Data) :=
  match http (createRequest instrumentData) with
  | Response data => mret (Resolved data)
  | Failure error =>
      if demoFallback error then
        t_id ← now ;
        t_created ← now ;
        t_updated ← now ;
        mret (Resolved (DObj (
          <["updatedAt" := VIso t_updated]> (
          <["createdAt" := VIso t_created]> (
          spreadOver "id" (VNum t_id) instrumentData)))))
      else mret (Rejected error)
  end.

(** [updateInstrument]'s mutation function; its argument is destructured
    as [{ id, ...instrumentData }]. *)
Definition updateInstrument (http : Server) (arg : Obj) : Timed (Promise Data) :=
  let id := prop "id" arg in
  let instrumentData := delete "id" arg in
  match http (updateRequest arg) with
  | Response data => mret (Resolved data)
  | Failure error =>
      if demoFallback error then
        t_updated ← now ;
        mret (Resolved (DObj (
          <["updatedAt" := VIso t_updated]> (spreadOver "id" id instrumentData))))
      else mret (Rejected error)
  end.

(** [deleteInstrument]'s mutation function. *)
Definition deleteInstrument (http : Server) (id : Value) : Timed (Promise Value) :=
  match http (deleteRequest id) with
  | Response _ => mret (Resolved id)
  | Failure error =>
      if demoFallback error then mret (Resolved id)
      else mret (Rejected error)
  end.

(** *** Terms used in the properties *)

(** The condition of the [catch] clauses, in words. *)
Definition networkErrorOr404 (error : AxiosError) : Prop :=
  code error = Some "ERR_NETWORK" ∨ status error = Some 404.

(** The records the fallbacks build, in terms of the clock at entry. *)
Definition synthesizedNew (instrumentData : Obj) (c : Clock) : Obj :=
  <["updatedAt" := VIso (c 2%nat)]> (
  <["createdAt" := VIso (c 1%nat)]> (spreadOver "id" (VNum (c 0%nat)) instrumentData)).
Definition synthesizedUpdate (arg : Obj) (c : Clock) : Obj :=
  <["updatedAt" := VIso (c 0%nat)]> (spreadOver "id" (prop "id" arg) (delete "id" arg)).

(** The payload of the creation scenario, as the form submits it. *)
Definition dmm1 : Obj := <["name" := VStr "DMM1"]> defaultFormData.

(** A stored record: [dmm1] as created at instant 500 with id 1. *)
Definition storedDmm1 : Obj :=
  <["id" := VNum 1]> (<["createdAt" := VIso 500]> (<["updatedAt" := VIso 500]> dmm1)).

(** A clock that advances by one millisecond after its second reading. *)
Definition tickingClock : Clock := clockOf [1000; 1000; 1001] 1002.

(** Servers: one that cannot be reached, and one that answers every
    request with the given status. *)
Definition unreachable : Server :=
  fun _ => Failure (mkAxiosError (Some "ERR_NETWORK") None).
Definition answers (st : Z) : Server :=
  fun _ => Failure (mkAxiosError (Some "ERR_BAD_REQUEST") (Some st)).

End Client.

(** ** The rest of the panel: minimising, dragging, deleting, rendering *)

Module PanelUi.
Import Js Panel.

Definition setIsMinimized (b : bool) (s : PanelState) : PanelState :=
  mkPanelState (isConnected s) (currentValue s) b (position s).

Definition setPosition (xy : Z * Z) (s : PanelState) : PanelState :=
  mkPanelState (isConnected s) (currentValue s) (isMinimized s) xy.

(** [handleDragStop]: [setPosition({ x: data.x, y: data.y })]. *)
Definition handleDragStop (x y : Z) (s : PanelState) : PanelState :=
  setPosition (x, y) s.

(** The callbacks a panel receives from its parent. *)
Inductive Callback : Type := onEdit | onDelete.

(** [handleDelete]; [confirmed] is the answer of [window.confirm] (the
    text of the prompt plays no part in what follows). *)
Definition handleDelete (confirmed : bool) : list Callback :=
  if confirmed then [onDelete] else [].

(** What the component returns.  Minimised, it is the header alone;
    otherwise the header, the status line, the display, the two control
    buttons and the info grid.  [t] is the clock reading of the render
    (shown through [toLocaleTimeString]). *)
Inductive PanelView : Type :=
  | MinimizedView (title type_ : Value)
  | FullView (title type_ : Value)
      (statusText : string)
      (displayValue displayUnit : string)
      (connectLabel : string) (measureIsDisabled : bool)
      (infoAddress : Value) (infoRange infoResolution : string)
      (lastUpdate : Z).

Definition render (instrument : Obj) (t : Z) (s : PanelState) : PanelView :=
  if isMinimized s then
    MinimizedView (prop "name" instrument) (prop "type" instrument)
  else
    FullView (prop "name" instrument) (prop "type" instrument)
      (if isConnected s then "Connected" else "Disconnected")
      (currentValue s) "V DC"
      (if isConnected s then "Disconnect" else "Connect") (negb (isConnected s))
      (prop "gpibAddress" instrument) "Auto" "6Â½ digits"
      t.

(** *** The panel as the user drives it

    The events of [Panel.Event], offered only when their control is
    rendered and enabled, and the events of the rest of the panel. *)
Inductive UiEvent : Type :=
  | Session (e : Event)
  | Minimize                      (* setIsMinimized(true) *)
  | Maximize                      (* setIsMinimized(false) *)
  | DragStop (x y : Z)
  | ClickEdit
  | ClickDelete (confirmed : bool).

Inductive Output : Type :=
  | Shown (t : Toast)
  | Called (c : Callback).

(** Connect and Measure are buttons of the full view, Measure with
    [disabled={!isConnected}]; the effect and the interval need none. *)
Definition offered (s : PanelState) (e : Event) : bool :=
  match e with
  | Connect => negb (isMinimized s)
  | Measure _ => negb (isMinimized s) && isConnected s
  | RunEffect _ | Tick _ => true
  end.

Definition stepUi (instrument : Obj) (p : Mounted) (ev : UiEvent)
  : option (Mounted * list Output) :=
  match ev with
  | Session e =>
      if offered (state p) e then
        match step instrument p e with
        | Some (p', ts) => Some (p', Shown <$> ts)
        | None => None
        end
      else None
  | Minimize =>
      if effectDue p || isMinimized (state p) then None
      else Some (mkMounted (setIsMinimized true (state p)) false (closure p), [])
  | Maximize =>
      if effectDue p || negb (isMinimized (state p)) then None
      else Some (mkMounted (setIsMinimized false (state p)) false (closure p), [])
  | DragStop x y =>
      if effectDue p then None
      else Some (mkMounted (handleDragStop x y (state p)) false (closure p), [])
  | ClickEdit =>
      if effectDue p then None else Some (p, [Called onEdit])
  | ClickDelete confirmed =>
      if effectDue p then None else Some (p, Called <$> handleDelete confirmed)
  end.

Fixpoint runUi (instrument : Obj) (p : Mounted) (evs : list UiEvent)
  : option (Mounted * list Output) :=
  match evs with
  | [] => Some (p, [])
  | ev :: evs' =>
      match stepUi instrument p ev with
      | None => None
      | Some (p', out) =>
          match runUi instrument p' evs' with
          | None => None
          | Some (p'', out') => Some (p'', out ++ out')
          end
      end
  end.

(** *** Terms used in the properties *)

Definition isErrorOutput (o : Output) : bool :=
  match o with Shown (toast_error _) => true | _ => false end.

Definition isMaximize (ev : UiEvent) : bool :=
  match ev with Maximize => true | _ => false end.

Definition isCallback (o : Output) : bool :=
  match o with Called _ => true | Shown _ => false end.

(** The draw of an event, if it has one. *)
Definition uiDrawOf (ev : UiEvent) : option Q :=
  match ev with Session e => drawOf e | _ => None end.

(** A settled panel: mounted, the effect run until its draw repeated. *)
Definition settled (connected : bool) (value : string) (minimized : bool)
    (xy : Z * Z) : Mounted :=
  mkMounted (mkPanelState connected value minimized xy) false connected.

End PanelUi.

(** ** The behaviour of the settings form (InstrumentSettings) *)

Module Form.
Import Js Panel Settings Client.

(** JavaScript truthiness of the values of a record. *)
Definition truthy (v : Value) : bool :=
  match v with
  | VUndefined => false
  | VBool b => b
  | VNum n => negb (n =? 0)
  | VStr s => negb (isEmpty s)
  | VIso _ => true
  end.

(** [v || d]. *)
Definition orElse (v d : Value) : Value := if truthy v then v else d.

(** The object the effect builds from the [instrument] prop. *)
Definition loadFormData (instrument : Obj) : Obj :=
  <["name" := orElse (prop "name" instrument) (VStr "")]> (
  <["type" := orElse (prop "type" instrument) (VStr "34401A")]> (
  <["gpibAddress" := orElse (prop "gpibAddress" instrument) (VStr "22")]> (
  <["description" := orElse (prop "description" instrument) (VStr "")]> (
  <["autoConnect" := orElse (prop "autoConnect" instrument) (VBool false)]> (
  <["measurementType" := orElse (prop "measurementType" instrument) (VStr "DC_VOLTAGE")]> (
  <["range" := orElse (prop "range" instrument) (VStr "AUTO")]> (
  <["resolution" := orElse (prop "resolution" instrument) (VStr "6.5")]> ∅))))))).

(** The form data once the effect has run: [if (instrument) setFormData(...)];
    the prop is null for a new instrument. *)
Definition formDataFor (instrument : option Obj) : Obj :=
  match instrument with
  | Some i => loadFormData i
  | None => defaultFormData
  end.

(** What [handleInputChange] reads of [e.target]. *)
Record ChangeTarget : Type := mkChangeTarget {
  name : string;
  value : string;
  type : string;
  checked : bool
}.

(** [handleInputChange]:
    [{ ...prev, [name]: type === 'checkbox' ? checked : value }]. *)
Definition handleInputChange (e : ChangeTarget) (prev : Obj) : Obj :=
  <[name e := if String.eqb (type e) "checkbox" then VBool (checked e)
              else VStr (value e)]> prev.

(** The controls the form renders, by [name], with the [type] the DOM
    reports for them, and for a select its option values. *)
Inductive Control : Type :=
  | TextInput | NumberInput | TextAreaInput | SelectOne (options : list string).

Definition controls : list (string * Control) :=
  [("name", TextInput);
   ("type", SelectOne typeOptions);
   ("gpibAddress", NumberInput);
   ("description", TextAreaInput);
   ("measurementType", SelectOne measurementTypeOptions);
   ("range", SelectOne rangeOptions);
   ("resolution", SelectOne resolutionOptions)].

Definition domType (c : Control) : string :=
  match c with
  | TextInput => "text"
  | NumberInput => "number"
  | TextAreaInput => "textarea"
  | SelectOne _ => "select-one"
  end.

(** A change event of control [c] named [n]: its target has that name and
    type, and the value of a select is one of its options. *)
Definition changeOf (n : string) (c : Control) (e : ChangeTarget) : bool :=
  String.eqb (name e) n && String.eqb (type e) (domType c) &&
  match c with
  | SelectOne options => existsb (String.eqb (value e)) options
  | _ => true
  end.

(** A change event that one of the form's controls can fire. *)
Definition fromForm (e : ChangeTarget) : bool :=
  existsb (fun nc => changeOf (fst nc) (snd nc) e) controls.

(** The form data after a sequence of change events, oldest first. *)
Definition edited (es : list ChangeTarget) (formData : Obj) : Obj :=
  foldl (fun fd e => handleInputChange e fd) formData es.

(** [handleSubmit], with the parent's [onSave] and [onClose] acting on the
    parent's state [W]: the loading flag it leaves ([true] while [onSave]
    is awaited, set back in [finally]), the toasts of the form itself, and
    the parent's state. *)
Definition handleSubmit {W A : Type}
    (onSave : Obj → W → Promise A * W) (onClose : W → W)
    (formData : Obj) (w : W) : (bool * list Toast) * W :=
  let '(saved, w1) := onSave formData w in
  match saved with
  | Resolved _ => ((false, []), onClose w1)
  | Rejected _ => ((false, [toast_error "Failed to save instrument settings"]), w1)
  end.

(** [handleTestConnection]: waits a second and reports success. *)
Definition handleTestConnection (formData : Obj) : list Toast :=
  [toast_success "Connection test successful!"].

(** *** Terms used in the properties *)

(** The value [handleInputChange] stores. *)
Definition stored (e : ChangeTarget) : Value :=
  if String.eqb (type e) "checkbox" then VBool (checked e) else VStr (value e).

(** The eight fields of the form data. *)
Definition formFields : gset string :=
  {[ "name"; "type"; "gpibAddress"; "description"; "autoConnect";
     "measurementType"; "range"; "resolution" ]}.

(** The four fields that are set through a select satisfy the closed
    enumerations. *)
Definition enumerationsHold (fields : Obj) : bool :=
  oneOf typeOptions (prop "type" fields) &&
  oneOf measurementTypeOptions (prop "measurementType" fields) &&
  oneOf rangeOptions (prop "range" fields) &&
  oneOf resolutionOptions (prop "resolution" fields).

End Form.

(** ** The list query (useInstruments) *)

Module Query.
Import Js Settings Client.

Definition listRequest : Request := mkRequest GET Instruments None.

(** The record of the fallback list. *)
Definition mockInstrument (t_created t_updated : Z) : Obj :=
  <["id" := VNum 1]> (
  <["name" := VStr "HP 34401A Multimeter"]> (
  <["type" := VStr "34401A"]> (
  <["gpibAddress" := VStr "22"]> (
  <["description" := VStr "High precision 6½ digit multimeter"]> (
  <["autoConnect" := VBool true]> (
  <["measurementType" := VStr "DC_VOLTAGE"]> (
  <["range" := VStr "AUTO"]> (
  <["resolution" := VStr "6.5"]> (
  <["createdAt" := VIso t_created]> (
  <["updatedAt" := VIso t_updated]> ∅)))))))))).

(** The query function of [useInstruments]. *)
Definition fetchInstruments (http : Server) : Timed (Promise Data) :=
  match http listRequest with
  | Response data => mret (Resolved data)
  | Failure error =>
      if demoFallback error then
        t_created ← now ;
        t_updated ← now ;
        mret (Resolved (DList [mockInstrument t_created t_updated]))
      else mret (Rejected error)
  end.

(** *** Terms used in the properties *)

(** A server out of reach or without the routes: every request fails
    with an error that the fallbacks swallow. *)
Definition demoMode (http : Server) : Prop :=
  ∀ request, ∃ error, http request = Failure error ∧ demoFallback error = true.

(** The ids of the records of a reply. *)
Definition idsOf (d : Data) : list Value :=
  match d with
  | DList l => prop "id" <$> l
  | DObj o => [prop "id" o]
  | DNone => []
  end.

End Query.

(** ** The application (App) *)

Module App.
Import Js Panel Settings Client.

(** [showSettings] and [selectedInstrument] ([None] is null). *)
Record AppState : Type := mkAppState {
  showSettings : bool;
  selectedInstrument : option Obj
}.

(** [useState(false)], [useState(null)]. *)
Definition initialApp : AppState := mkAppState false None.

(** The state of the application together with what its asynchronous
    handlers read and write: the clock and the toasts shown so far. *)
Record World : Type := mkWorld {
  appState : AppState;
  clock : Clock;
  shown : list Toast
}.

Definition handleAddInstrument (st : AppState) : AppState :=
  mkAppState true None.

Definition handleEditInstrument (instrument : Obj) (st : AppState) : AppState :=
  mkAppState true (Some instrument).

(** The header's Settings button: [setShowSettings(true)]. *)
Definition openSettings (st : AppState) : AppState :=
  mkAppState true (selectedInstrument st).

(** The modal's [onClose]. *)
Definition closeSettings (st : AppState) : AppState := mkAppState false None.

Definition closeSettingsIn (w : World) : World :=
  mkWorld (closeSettings (appState w)) (clock w) (shown w).

Section Handlers.

(** The three functions [useInstrumentActions] hands to the App, as the
    App calls them: [updateInstrument(selectedInstrument.id, instrumentData)],
    [addInstrument(instrumentData)], [deleteInstrument(id)]. *)
Variable updateInstrument : Value → Obj → Timed (Promise Data).
Variable addInstrument : Obj → Timed (Promise Data).
Variable deleteInstrument : Value → Timed (Promise Value).

(** [handleSaveInstrument]: the [try] and its [catch]. *)
Definition handleSaveInstrument (instrumentData : Obj) (w : World)
  : Promise unit * World :=
  let st := appState w in
  match selectedInstrument st with
  | Some selected =>
      let '(r, c) := updateInstrument (prop "id" selected) instrumentData (clock w) in
      match r with
      | Resolved _ =>
          (Resolved tt,
           mkWorld (mkAppState false None) c
                   (shown w ++ [toast_success "Instrument updated successfully!"]))
      | Rejected _ =>
          (Resolved tt,
           mkWorld st c (shown w ++ [toast_error "Failed to save instrument"]))
      end
  | None =>
      let '(r, c) := addInstrument instrumentData (clock w) in
      match r with
      | Resolved _ =>
          (Resolved tt,
           mkWorld (mkAppState false None) c
                   (shown w ++ [toast_success "Instrument added successfully!"]))
      | Rejected _ =>
          (Resolved tt,
           mkWorld st c (shown w ++ [toast_error "Failed to save instrument"]))
      end
  end.

(** [handleDeleteInstrument]. *)
Definition handleDeleteInstrument (id : Value) (w : World) : Promise unit * World :=
  let '(r, c) := deleteInstrument id (clock w) in
  match r with
  | Resolved _ =>
      (Resolved tt,
       mkWorld (appState w) c
               (shown w ++ [toast_success "Instrument deleted successfully!"]))
  | Rejected _ =>
      (Resolved tt,
       mkWorld (appState w) c (shown w ++ [toast_error "Failed to delete instrument"]))
  end.

(** Submitting the settings form inside the App: the form's
    [handleSubmit] with [onSave={handleSaveInstrument}] and the App's
    [onClose]. *)
Definition submitSettings (formData : Obj) (w : World) : (bool * list Toast) * World :=
  Form.handleSubmit handleSaveInstrument closeSettingsIn formData w.

(** The events that change the App's state: the header's two buttons
    (and the empty state's, which is [handleAddInstrument] too), the edit
    button of a panel, and the form's close and submit. *)
Inductive AppEvent : Type :=
  | ClickAdd
  | ClickSettings
  | ClickEditOf (instrument : Obj)
  | CloseForm
  | SubmitForm (formData : Obj).

Definition inApp (f : AppState → AppState) (w : World) : World :=
  mkWorld (f (appState w)) (clock w) (shown w).

Definition stepApp (w : World) (ev : AppEvent) : World :=
  match ev with
  | ClickAdd => inApp handleAddInstrument w
  | ClickSettings => inApp openSettings w
  | ClickEditOf instrument => inApp (handleEditInstrument instrument) w
  | CloseForm => closeSettingsIn w
  | SubmitForm formData => snd (submitSettings formData w)
  end.

Definition runApp (w : World) (evs : list AppEvent) : World := foldl stepApp w evs.

End Handlers.

(** Whether a promise is fulfilled. *)
Definition isResolved {A : Type} (r : Promise A) : bool :=
  match r with Resolved _ => true | Rejected _ => false end.

(** Whether a reply makes a mutation of [useInstrumentActions] resolve:
    a response, or a failure that the fallback swallows. *)
Definition mutationResolves (reply : Reply) : bool :=
  match reply with
  | Response _ => true
  | Failure error => demoFallback error
  end.

(** *** What the App renders

    The App destructures [{ instruments = [], isLoading, error }] from
    what [useInstruments()] returns, the result object of [useQuery].  A
    result object is a finite map from property names to fields. *)
Inductive Field : Type :=
  | FData (d : Data)          (* an array, an object, or undefined *)
  | FFlag (b : bool)
  | FError (e : AxiosError)
  | FNull
  | FText (s : string).

Definition fieldTruthy (f : Field) : bool :=
  match f with
  | FData DNone => false
  | FData _ => true
  | FFlag b => b
  | FError _ => true
  | FNull => false
  | FText s => negb (isEmpty s)
  end.

Inductive View : Type :=
  | LoadingView
  | EmptyStateView
  | GridView (instruments : list Obj)   (* one InstrumentPanel per record *)
  | RenderError.                         (* instruments.map is not a function *)

(** The destructuring default applies to a missing or undefined property. *)
Definition instrumentsOf (result : gmap string Field) : Field :=
  match result !! "instruments" with
  | None | Some (FData DNone) => FData (DList [])
  | Some f => f
  end.

(** The conditional of the returned JSX. *)
Definition appView (result : gmap string Field) : View :=
  if from_option fieldTruthy false (result !! "isLoading") then LoadingView
  else
    match instrumentsOf result with
    | FData (DList []) => EmptyStateView
    | FData (DList l) => GridView l
    | f => if fieldTruthy f then RenderError else EmptyStateView
    end.

(** [if (error) toast.error('Failed to load instruments')], on each render. *)
Definition loadErrorToasts (result : gmap string Field) : list Toast :=
  if from_option fieldTruthy false (result !! "error")
  then [toast_error "Failed to load instruments"] else [].

(** The result object of a settled query, as far as the App could read
    it: [data], [isLoading], [error]. *)
Definition resultOf (data : Data) (loading : bool) (error : option AxiosError)
  : gmap string Field :=
  <["data" := FData data]> (<["isLoading" := FFlag loading]> (
  <["error" := from_option FError FNull error]> ∅)).

End App.

(** * Properties *)

(** ** Fixed-point rendering *)

Module JsFacts.
Import Js.

(** *** Examples *)

Example toFixed_half : toFixed 3 (1 # 2) = "0.500".
Proof. reflexivity. Qed.
Example toFixed_round_up : toFixed 3 (12345 # 10000) = "1.235".
Proof. reflexivity. Qed.
Example toFixed_round_down : toFixed 3 (12344 # 10000) = "1.234".
Proof. reflexivity. Qed.
Example toFixed_small : toFixed 3 (1 # 4096) = "0.000".
Proof. reflexivity. Qed.
Example toFixed_no_fraction : toFixed 0 (25 # 10) = "3".
Proof. reflexivity. Qed.
Example toFixed_negative : toFixed 2 (-(5 # 4)) = "-1.25".
Proof. reflexivity. Qed.

(** *** Digits *)

Lemma digitChar_cases (d : Z) :
  isDigit (digitChar d) = true ∧ digitValue (digitChar d) = d mod 10.
Proof.
  unfold digitChar, digitValue.
  assert (0 <= d mod 10 < 10) as Hd by (apply Z.mod_pos_bound; lia).
  assert (d mod 10 = 0 ∨ d mod 10 = 1 ∨ d mod 10 = 2 ∨ d mod 10 = 3 ∨ d mod 10 = 4
          ∨ d mod 10 = 5 ∨ d mod 10 = 6 ∨ d mod 10 = 7 ∨ d mod 10 = 8 ∨ d mod 10 = 9)
    as Hcases by lia.
  destruct Hcases as [-> | [-> | [-> | [-> | [-> | [-> | [-> | [-> | [-> | ->]]]]]]]]];
    split; reflexivity.
Qed.

Lemma allDigits_cons (c : ascii) (s : string) :
  allDigits (String c s) = isDigit c && allDigits s.
Proof. reflexivity. Qed.

Lemma app_cons (c : ascii) (a b : string) :
  String c a +:+ b = String c (a +:+ b).
Proof. reflexivity. Qed.

Lemma app_empty (b : string) : EmptyString +:+ b = b.
Proof. reflexivity. Qed.

Lemma length_app (a b : string) :
  String.length (a +:+ b) = (String.length a + String.length b)%nat.
Proof.
  induction a as [| c a IH]; [done |]. rewrite app_cons. simpl. by rewrite IH.
Qed.

Lemma allDigits_app (a b : string) :
  allDigits (a +:+ b) = allDigits a && allDigits b.
Proof.
  induction a as [| c a IH]; [done |].
  rewrite app_cons, !allDigits_cons, IH. by rewrite andb_assoc.
Qed.

Lemma splitDigits_all (a : string) :
  allDigits a = true → splitDigits a = (a, EmptyString).
Proof.
  induction a as [| c a IH]; [done |].
  rewrite allDigits_cons. intros [Hc Ha]%andb_prop.
  simpl. by rewrite Hc, IH.
Qed.

Lemma splitDigits_stop (a : string) (c : ascii) (rest : string) :
  allDigits a = true → isDigit c = false →
  splitDigits (a +:+ String c rest) = (a, String c rest).
Proof.
  intros Ha Hc. induction a as [| d a IH].
  - rewrite app_empty. simpl. by rewrite Hc.
  - rewrite allDigits_cons in Ha. apply andb_prop in Ha as [Hd Ha].
    rewrite app_cons. simpl. by rewrite Hd, IH.
Qed.

Lemma digitsValue_app (a b : string) (acc : Z) :
  digitsValue acc (a +:+ b) = digitsValue (digitsValue acc a) b.
Proof.
  revert acc. induction a as [| c a IH]; intros acc; [done |].
  rewrite app_cons. simpl. by rewrite IH.
Qed.

(** *** The integer part *)

Lemma digitsFrom_allDigits (fuel : nat) : ∀ n suffix,
  allDigits (digitsFrom fuel n suffix) = allDigits suffix.
Proof.
  induction fuel as [| fuel IH]; intros n suffix; [done |].
  simpl. destruct (n <? 10).
  - rewrite allDigits_cons. by rewrite (proj1 (digitChar_cases n)).
  - rewrite IH, allDigits_cons. by rewrite (proj1 (digitChar_cases n)).
Qed.

Lemma digitsFrom_nonempty (fuel : nat) : ∀ n c suffix,
  isEmpty (digitsFrom fuel n (String c suffix)) = false.
Proof.
  induction fuel as [| fuel IH]; intros n c suffix; [done |].
  simpl. destruct (n <? 10); [done | apply IH].
Qed.

(** With enough fuel the digits denote the number. *)
Lemma digitsFrom_value (fuel : nat) : ∀ n suffix,
  0 <= n < 2 ^ Z.of_nat fuel →
  ∃ k, 0 <= k ∧ ∀ acc,
    digitsValue acc (digitsFrom fuel n suffix) = digitsValue (acc * 10 ^ k + n) suffix.
Proof.
  induction fuel as [| fuel IH]; intros n suffix Hn.
  - exists 0. split; [lia |]. intros acc.
    change (2 ^ Z.of_nat 0) with 1 in Hn.
    simpl digitsFrom. f_equal. lia.
  - simpl digitsFrom. destruct (Z.ltb_spec n 10) as [Hlt | Hge].
    + exists 1. split; [lia |]. intros acc. simpl.
      rewrite (proj2 (digitChar_cases n)), Z.mod_small by lia.
      f_equal. lia.
    + destruct (IH (n / 10) (String (digitChar n) suffix)) as (k & Hk & IHk).
      { rewrite Nat2Z.inj_succ, Z.pow_succ_r in Hn by lia.
        split; [apply Z.div_pos; lia |].
        apply Z.div_lt_upper_bound; lia. }
      exists (k + 1). split; [lia |]. intros acc.
      rewrite IHk. simpl. rewrite (proj2 (digitChar_cases n)).
      f_equal. rewrite Z.pow_add_r by lia.
      pose proof (Z.div_mod n 10 ltac:(lia)). lia.
Qed.

Lemma intDigits_allDigits (n : Z) : allDigits (intDigits n) = true.
Proof. unfold intDigits. by rewrite digitsFrom_allDigits. Qed.

Lemma intDigits_nonempty (n : Z) : isEmpty (intDigits n) = false.
Proof.
  unfold intDigits. simpl. destruct (n <? 10); [done | apply digitsFrom_nonempty].
Qed.

Lemma intDigits_value (n : Z) : 0 <= n → digitsValue 0 (intDigits n) = n.
Proof.
  intros Hn. unfold intDigits.
  destruct (digitsFrom_value (S (Z.to_nat (Z.log2 n))) n EmptyString) as (k & _ & Hk).
  - split; [done |].
    rewrite Nat2Z.inj_succ, Z2Nat.id by apply Z.log2_nonneg.
    destruct (Z.eq_dec n 0) as [-> | Hne]; [done |].
    apply Z.log2_spec. lia.
  - rewrite Hk. simpl. lia.
Qed.

(** *** The fraction digits *)

Lemma fracDigits_length (f : nat) : ∀ n, String.length (fracDigits f n) = f.
Proof.
  induction f as [| f IH]; intros n; [done |].
  simpl. rewrite length_app, IH. simpl. lia.
Qed.

Lemma fracDigits_allDigits (f : nat) : ∀ n, allDigits (fracDigits f n) = true.
Proof.
  induction f as [| f IH]; intros n; [done |].
  simpl. rewrite allDigits_app, IH, allDigits_cons.
  by rewrite (proj1 (digitChar_cases n)).
Qed.

Lemma fracDigits_value (f : nat) : ∀ n acc,
  digitsValue acc (fracDigits f n) = acc * 10 ^ Z.of_nat f + n mod 10 ^ Z.of_nat f.
Proof.
  induction f as [| f IH]; intros n acc.
  - simpl. rewrite Z.mod_1_r. lia.
  - simpl fracDigits. rewrite digitsValue_app, IH. simpl digitsValue.
    rewrite (proj2 (digitChar_cases n)).
    rewrite Nat2Z.inj_succ, Z.pow_succ_r by lia.
    rewrite (Z.rem_mul_r n 10 (10 ^ Z.of_nat f)) by lia.
    lia.
Qed.

(** *** Rendering and reading back *)

Lemma renderFixed_split (f : nat) (n : Z) :
  splitDigits (renderFixed (S f) n)
  = (intDigits (n / 10 ^ Z.of_nat (S f)), String "."%char (fracDigits (S f) n)).
Proof.
  unfold renderFixed. apply splitDigits_stop; [apply intDigits_allDigits | done].
Qed.

(** [toFixed] with one or more fraction digits shows exactly that many. *)
Lemma renderFixed_hasDecimals (f : nat) (n : Z) :
  hasDecimals (S f) (renderFixed (S f) n) = true.
Proof.
  unfold hasDecimals. rewrite renderFixed_split.
  rewrite intDigits_nonempty, fracDigits_allDigits, fracDigits_length.
  simpl. by rewrite Nat.eqb_refl.
Qed.

(** The string rendered from [n] denotes [n / 10^f]. *)
Lemma renderFixed_parse (f : nat) (n : Z) :
  0 <= n →
  ∃ q, parseFixed (renderFixed (S f) n) = Some q
     ∧ (q == inject_Z n / inject_Z (10 ^ Z.of_nat (S f)))%Q.
Proof.
  intros Hn. set (P := 10 ^ Z.of_nat (S f)).
  assert (0 < P) as HP by (apply Z.pow_pos_nonneg; lia).
  unfold parseFixed. rewrite renderFixed_split.
  rewrite intDigits_nonempty, fracDigits_allDigits.
  assert (isEmpty (fracDigits (S f) n) = false) as ->.
  { pose proof (fracDigits_length (S f) n) as Hl.
    by destruct (fracDigits (S f) n). }
  simpl andb. cbv iota.
  eexists. split; [reflexivity |].
  rewrite fracDigits_length, fracDigits_value, intDigits_value
    by (apply Z.div_pos; lia).
  fold P. rewrite Z.mul_0_l, Z.add_0_l.
  rewrite (Z.div_mod n P) at 3 by lia.
  rewrite inject_Z_plus, inject_Z_mult.
  field. intros H0. unfold Qeq in H0. simpl in H0. lia.
Qed.

(** *** Rounding to binary64 *)

Example roundDouble_third :
  Qred (roundDouble (1 # 3)) = (6004799503160661 # 18014398509481984)%Q.
Proof. vm_compute. reflexivity. Qed.
Example roundDouble_tenth :
  Qred (roundDouble (1 # 10)) = (3602879701896397 # 36028797018963968)%Q.
Proof. vm_compute. reflexivity. Qed.
Example roundDouble_tie_to_even :
  (roundDouble (1 + (1 # 2 ^ 53)) == 1)%Q
  ∧ (roundDouble (1 + (3 # 2 ^ 53)) == 1 + (4 # 2 ^ 53))%Q.
Proof. split; vm_compute; reflexivity. Qed.
Example roundDouble_subnormal :
  (roundDouble (3 # 2 ^ 1075) == 2 # 2 ^ 1074)%Q
  ∧ (roundDouble (1 # 2 ^ 1076) == 0)%Q.
Proof. split; vm_compute; reflexivity. Qed.
Example times_tenth_three :
  (times (roundDouble (1 # 10)) 3 == 5404319552844596 # 18014398509481984)%Q
  ∧ (3 # 10 < times (roundDouble (1 # 10)) 3)%Q.
Proof. split; vm_compute; reflexivity. Qed.

Lemma roundHalfEven_cases (y : Q) :
  (roundHalfEven y = Qfloor y ∧ (y - inject_Z (Qfloor y) <= 1 # 2)%Q)
  ∨ (roundHalfEven y = Qfloor y + 1 ∧ (1 # 2 <= y - inject_Z (Qfloor y))%Q).
Proof.
  unfold roundHalfEven.
  destruct (Qcompare_spec (y - inject_Z (Qfloor y)) (1 # 2)) as [E | L | G].
  - destruct (Z.even (Qfloor y)); [left | right]; split; try reflexivity;
      rewrite E; apply Qle_refl.
  - left. split; [reflexivity | apply Qlt_le_weak, L].
  - right. split; [reflexivity | apply Qlt_le_weak, G].
Qed.

Lemma inject_Z_lt (a b : Z) : (inject_Z a < inject_Z b)%Q → a < b.
Proof. rewrite <- Zlt_Qlt. trivial. Qed.

Lemma roundHalfEven_nonneg (y : Q) : (0 <= y)%Q → 0 <= roundHalfEven y.
Proof.
  intros H.
  assert (0 <= Qfloor y) by (apply (Qfloor_resp_le 0 y) in H; exact H).
  destruct (roundHalfEven_cases y) as [[-> _] | [-> _]]; lia.
Qed.

Lemma roundHalfEven_le (y : Q) (K : Z) : (y <= inject_Z K)%Q → roundHalfEven y <= K.
Proof.
  intros H. pose proof (Qfloor_le y) as Hf.
  destruct (roundHalfEven_cases y) as [[-> _] | [-> Hd]].
  - rewrite Zle_Qle. lra.
  - assert (Qfloor y < K); [apply inject_Z_lt; lra | lia].
Qed.

Lemma roundHalfEven_lt (y : Q) (K : Z) :
  (y + (1 # 2) < inject_Z K)%Q → roundHalfEven y < K.
Proof.
  intros H. pose proof (Qfloor_le y) as Hf.
  destruct (roundHalfEven_cases y) as [[-> _] | [-> Hd]].
  - apply inject_Z_lt. lra.
  - apply inject_Z_lt. rewrite inject_Z_plus. change (inject_Z 1) with 1%Q. lra.
Qed.

(** Below 16 the spacing of the binary64 values is at most [2^-49]. *)
Lemma binade_below_16 (x : Q) : (0 < x)%Q → (x < 16)%Q → binade x <= 3.
Proof.
  intros H0 H16. unfold binade.
  destruct x as [n d]. cbn [Qnum Qden].
  assert (0 < n) as Hn by (unfold Qlt in H0; simpl in H0; lia).
  assert (n < 16 * Z.pos d) as Hd by (unfold Qlt in H16; simpl in H16; lia).
  set (e := Z.log2 n - Z.log2 (Z.pos d)).
  assert (e <= 4) as He.
  { destruct (Z.log2_spec n Hn) as [Ln _].
    destruct (Z.log2_spec (Z.pos d) eq_refl) as [_ Ld].
    destruct (Z_le_gt_dec e 4) as [|G]; [assumption | exfalso].
    assert (2 ^ (Z.log2 (Z.pos d) + 5) <= 2 ^ Z.log2 n)
      by (apply Z.pow_le_mono_r; unfold e in G; lia).
    pose proof (Z.log2_nonneg (Z.pos d)).
    rewrite Z.pow_add_r in H by lia.
    rewrite Z.pow_succ_r in Ld by lia.
    change (2 ^ 5) with 32 in H.
    clear -Hd Ln Ld H. set (A := 2 ^ Z.log2 (Z.pos d)) in *. set (B := 2 ^ Z.log2 n) in *.
    clearbody A B. lia. }
  destruct (Qle_bool (pow2 e) (n # d)) eqn:T; [| lia].
  destruct (Z_le_gt_dec e 3) as [|G]; [assumption | exfalso].
  assert (e = 4) as E4 by lia. rewrite E4 in T.
  apply Qle_bool_imp_le in T. change (pow2 4) with (16 # 1)%Q in T.
  unfold Qle in T. cbn [Qnum Qden] in T. lia.
Qed.

Lemma roundPositive_small (x : Q) :
  (0 < x)%Q → (x < 16)%Q →
  ∃ P : Z, 2 ^ 49 <= P
    ∧ roundPositive x
      = (inject_Z (roundHalfEven (x / (1 / inject_Z P))) * (1 / inject_Z P))%Q.
Proof.
  intros H0 H16. pose proof (binade_below_16 x H0 H16) as Hb.
  unfold roundPositive, pow2.
  set (k := ulpExponent x).
  assert (k <= -49) as Hk by (unfold k, ulpExponent; lia).
  destruct (Z.leb_spec 0 k); [lia |].
  exists (2 ^ (- k)). split; [| reflexivity].
  apply Z.pow_le_mono_r; lia.
Qed.

(** Rounding keeps a number of [[0, 10]] there, and one that is at most
    [10 - 10 * 2^-53] below 10. *)
Lemma roundPositive_bounds (x : Q) :
  (0 < x)%Q → (x <= 10)%Q →
  (0 <= roundPositive x)%Q ∧ (roundPositive x <= 10)%Q
  ∧ ((x <= 10 - (10 # 2 ^ 53))%Q → (roundPositive x < 10)%Q).
Proof.
  intros H0 H10.
  destruct (roundPositive_small x H0) as (P & HP & ->); [lra |].
  assert (0 < inject_Z P)%Q as Hp
    by (change 0%Q with (inject_Z 0); rewrite <- Zlt_Qlt; lia).
  assert (inject_Z (2 ^ 49) <= inject_Z P)%Q as Hp49 by (rewrite <- Zle_Qle; exact HP).
  assert (x / (1 / inject_Z P) == x * inject_Z P)%Q as E by (field; lra).
  set (m := roundHalfEven (x / (1 / inject_Z P))).
  assert (0 < 1 / inject_Z P)%Q as Hi.
  { unfold Qdiv. rewrite Qmult_1_l. apply Qinv_lt_0_compat, Hp. }
  assert (x * inject_Z P <= 10 * inject_Z P)%Q as Hy
    by (apply Qmult_le_compat_r; lra).
  assert (0 <= x * inject_Z P)%Q as Hy0 by (apply Qmult_le_0_compat; lra).
  assert (0 <= m) as Hm0 by (apply roundHalfEven_nonneg; rewrite E; exact Hy0).
  assert (m <= 10 * P) as Hm10.
  { apply roundHalfEven_le. rewrite E, inject_Z_mult. exact Hy. }
  assert (forall a b : Z, a <= b ->
            (inject_Z a * (1 / inject_Z P) <= inject_Z b * (1 / inject_Z P))%Q) as Mono.
  { intros a b Hab. apply Qmult_le_compat_r; [rewrite <- Zle_Qle; exact Hab |].
    apply Qlt_le_weak, Hi. }
  assert (inject_Z (10 * P) * (1 / inject_Z P) == 10)%Q as E10
    by (rewrite inject_Z_mult; field; lra).
  split; [| split].
  - apply Qmult_le_0_compat; [| apply Qlt_le_weak, Hi].
    change 0%Q with (inject_Z 0). rewrite <- Zle_Qle. exact Hm0.
  - rewrite <- E10. apply Mono, Hm10.
  - intros Hx.
    assert (m < 10 * P) as Hlt.
    { apply roundHalfEven_lt. rewrite E, inject_Z_mult.
      assert (x * inject_Z P <= (10 - (10 # 2 ^ 53)) * inject_Z P)%Q
        by (apply Qmult_le_compat_r; lra).
      change (inject_Z 10) with 10%Q.
      change (inject_Z (2 ^ 49)) with (562949953421312 # 1)%Q in Hp49.
      change (10 # 2 ^ 53)%Q with (10 # 9007199254740992)%Q in H.
      lra. }
    assert (m <= 10 * P - 1) as Hle by lia.
    apply (Mono m (10 * P - 1)) in Hle.
    assert (inject_Z (10 * P - 1) * (1 / inject_Z P) == 10 - 1 / inject_Z P)%Q as E9.
    { assert (inject_Z (10 * P - 1) == 10 * inject_Z P - 1)%Q as ->
        by (unfold Z.sub; rewrite inject_Z_plus, inject_Z_mult; reflexivity).
      field. lra. }
    rewrite E9 in Hle. clear E9 E10 Mono E.
    revert Hle Hi. generalize (1 / inject_Z P)%Q (inject_Z m * (1 / inject_Z P))%Q.
    intros u v Hle Hi. lra.
Qed.

Lemma roundDouble_range (x : Q) :
  (0 <= x)%Q → (x <= 10)%Q → (0 <= roundDouble x)%Q ∧ (roundDouble x <= 10)%Q.
Proof.
  intros H0 H10. unfold roundDouble.
  destruct (Qcompare_spec x 0) as [E | L | G].
  - lra.
  - lra.
  - destruct (roundPositive_bounds x G H10) as (? & ? & _). split; assumption.
Qed.

Lemma roundDouble_below_10 (x : Q) :
  (0 <= x)%Q → (x <= 10 - (10 # 2 ^ 53))%Q → (roundDouble x < 10)%Q.
Proof.
  intros H0 H10. unfold roundDouble.
  assert (10 - (10 # 2 ^ 53) <= 10)%Q by (vm_compute; discriminate).
  destruct (Qcompare_spec x 0) as [E | L | G].
  - lra.
  - lra.
  - apply (roundPositive_bounds x G); [lra | exact H10].
Qed.

Lemma binade_half (x : Q) : (1 # 2 <= x)%Q → (x < 1)%Q → binade x = -1.
Proof.
  intros Hlo Hhi. unfold binade.
  destruct x as [n d]. cbn [Qnum Qden].
  assert (Z.pos d <= 2 * n) as H2 by (unfold Qle in Hlo; simpl in Hlo; lia).
  assert (n < Z.pos d) as H1 by (unfold Qlt in Hhi; simpl in Hhi; lia).
  assert (0 < n) as Hn by lia.
  pose proof (Z.log2_le_mono n (Z.pos d) ltac:(lia)) as Ha.
  pose proof (Z.log2_le_mono (Z.pos d) (2 * n) H2) as Hb.
  rewrite (Z.log2_double n Hn) in Hb.
  set (e := Z.log2 n - Z.log2 (Z.pos d)).
  assert (e = 0 \/ e = -1) as [-> | ->] by (unfold e; lia).
  - destruct (Qle_bool (pow2 0) (n # d)) eqn:T; [| reflexivity].
    apply Qle_bool_imp_le in T. change (pow2 0) with 1%Q in T.
    exfalso. apply (Qlt_not_le _ _ Hhi T).
  - destruct (Qle_bool (pow2 (-1)) (n # d)) eqn:T; [reflexivity |].
    exfalso. apply not_true_iff_false in T. apply T, Qle_bool_iff.
    change (pow2 (-1)) with (1 / 2)%Q. exact Hlo.
Qed.

(** The largest binary64 value below 1 is [1 - 2^-53]. *)
Lemma double_below_one (r : Q) :
  (0 <= r)%Q → (r < 1)%Q → isDouble r → (r <= 1 - (1 # 2 ^ 53))%Q.
Proof.
  intros H0 H1 Hd.
  change (1 # 2 ^ 53)%Q with (1 # 9007199254740992)%Q.
  destruct (Qlt_le_dec r (1 # 2)) as [Hs | Hh]; [lra |].
  unfold isDouble, roundDouble in Hd.
  destruct (Qcompare_spec r 0) as [E | L | G]; [lra | lra |].
  unfold roundPositive, ulpExponent in Hd.
  rewrite (binade_half r Hh H1) in Hd.
  change (Z.max (-1 - 52) (-1074)) with (-53) in Hd.
  change (pow2 (-53)) with (1 / inject_Z 9007199254740992)%Q in Hd.
  set (m := roundHalfEven (r / (1 / inject_Z 9007199254740992))) in Hd.
  assert (inject_Z m < inject_Z 9007199254740992)%Q as Hm.
  { change (inject_Z 9007199254740992) with (9007199254740992 # 1)%Q in *.
    generalize dependent (inject_Z m). intros q Hq.
    assert (q == r * 9007199254740992)%Q as -> by (rewrite <- Hq; field). lra. }
  apply inject_Z_lt in Hm.
  assert (inject_Z m <= inject_Z 9007199254740991)%Q as Hle by (rewrite <- Zle_Qle; lia).
  change (inject_Z 9007199254740992) with (9007199254740992 # 1)%Q in *.
  change (inject_Z 9007199254740991) with (9007199254740991 # 1)%Q in *.
  generalize dependent (inject_Z m). intros q Hq Hq'.
  assert (q == r * 9007199254740992)%Q as E by (rewrite <- Hq; field).
  clear Hq. lra.
Qed.

(** 0.3 is not a binary64 value, the literal [0.3] is. *)
Example isDouble_examples :
  isDouble (1 # 2) ∧ isDouble (1048575 # 1048576) ∧ isDouble (9006748894778255 # 2 ^ 53)
  ∧ ¬ isDouble (3 # 10) ∧ isDouble (roundDouble (3 # 10)) ∧ isDouble (1 - (1 # 2 ^ 53)).
Proof. repeat split; vm_compute; congruence. Qed.

(** *** The rounding is to a nearest binary64 value *)

Lemma pow2_Qpower (k : Z) : (pow2 k == 2 ^ k)%Q.
Proof.
  unfold pow2. destruct (Z.leb_spec 0 k) as [H | H].
  - rewrite Zpower_Qpower by exact H. reflexivity.
  - rewrite Zpower_Qpower by lia.
    rewrite <- (Z.opp_involutive k) at 2. rewrite (Qpower_opp 2 (- k)).
    unfold Qdiv. rewrite Qmult_1_l. reflexivity.
Qed.

Lemma pow2_pos (k : Z) : (0 < pow2 k)%Q.
Proof. rewrite pow2_Qpower. apply Qpower_0_lt. reflexivity. Qed.

Lemma pow2_sub (i j : Z) :
  0 <= i → 0 <= j → (pow2 (i - j) == inject_Z (2 ^ i) / inject_Z (2 ^ j))%Q.
Proof.
  intros Hi Hj. rewrite pow2_Qpower, !Zpower_Qpower by assumption.
  apply Qpower_minus. discriminate.
Qed.

Lemma Qdiv_le_cross (a b c d : Z) :
  0 < b → 0 < d → a * d <= c * b → (inject_Z a / inject_Z b <= inject_Z c / inject_Z d)%Q.
Proof.
  intros Hb Hd H.
  assert (0 < inject_Z b)%Q by (change 0%Q with (inject_Z 0); rewrite <- Zlt_Qlt; exact Hb).
  assert (0 < inject_Z d)%Q by (change 0%Q with (inject_Z 0); rewrite <- Zlt_Qlt; exact Hd).
  apply Qle_shift_div_r; [assumption |].
  assert (inject_Z c / inject_Z d * inject_Z b == inject_Z c * inject_Z b / inject_Z d)%Q as ->
    by (field; lra).
  apply Qle_shift_div_l; [assumption |].
  rewrite <- !inject_Z_mult, <- Zle_Qle. exact H.
Qed.

Lemma Qdiv_lt_cross (a b c d : Z) :
  0 < b → 0 < d → a * d < c * b → (inject_Z a / inject_Z b < inject_Z c / inject_Z d)%Q.
Proof.
  intros Hb Hd H.
  assert (0 < inject_Z b)%Q by (change 0%Q with (inject_Z 0); rewrite <- Zlt_Qlt; exact Hb).
  assert (0 < inject_Z d)%Q by (change 0%Q with (inject_Z 0); rewrite <- Zlt_Qlt; exact Hd).
  apply Qlt_shift_div_r; [assumption |].
  assert (inject_Z c / inject_Z d * inject_Z b == inject_Z c * inject_Z b / inject_Z d)%Q as ->
    by (field; lra).
  apply Qlt_shift_div_l; [assumption |].
  rewrite <- !inject_Z_mult, <- Zlt_Qlt. exact H.
Qed.

(** [binade x] is the exponent of the power of two at or below [x]. *)
Lemma binade_spec (x : Q) :
  (0 < x)%Q → (pow2 (binade x) <= x)%Q ∧ (x < pow2 (binade x + 1))%Q.
Proof.
  intros H0. unfold binade.
  destruct x as [n d]. cbn [Qnum Qden].
  assert (0 < n) as Hn by (unfold Qlt in H0; simpl in H0; lia).
  destruct (Z.log2_spec n Hn) as [Ln Ln'].
  destruct (Z.log2_spec (Z.pos d) eq_refl) as [Ld Ld'].
  pose proof (Z.log2_nonneg n) as Ha. pose proof (Z.log2_nonneg (Z.pos d)) as Hb.
  set (a := Z.log2 n) in *. set (b := Z.log2 (Z.pos d)) in *.
  assert (0 < 2 ^ a) as Pa by (apply Z.pow_pos_nonneg; lia).
  assert (0 < 2 ^ b) as Pb by (apply Z.pow_pos_nonneg; lia).
  assert (0 < 2 ^ Z.succ a) as Pa' by (apply Z.pow_pos_nonneg; lia).
  assert (0 < 2 ^ Z.succ b) as Pb' by (apply Z.pow_pos_nonneg; lia).
  assert (n # d == inject_Z n / inject_Z (Z.pos d))%Q as Ex by apply Qmake_Qdiv.
  assert (pow2 (a - b - 1) <= n # d)%Q as Hlow.
  { replace (a - b - 1) with (a - Z.succ b) by lia.
    rewrite pow2_sub by lia. rewrite Ex.
    apply Qdiv_le_cross; [lia | lia |].
    apply Z.mul_le_mono_nonneg; lia. }
  assert (n # d < pow2 (a - b + 1))%Q as Hhigh.
  { replace (a - b + 1) with (Z.succ a - b) by lia.
    rewrite pow2_sub by lia. rewrite Ex.
    apply Qdiv_lt_cross; [lia | lia |].
    apply Z.le_lt_trans with (n * Z.pos d); [apply Z.mul_le_mono_nonneg_l; lia |].
    apply Z.mul_lt_mono_pos_r; lia. }
  destruct (Qle_bool (pow2 (a - b)) (n # d)) eqn:T.
  - split; [apply Qle_bool_imp_le, T | exact Hhigh].
  - split; [exact Hlow |].
    replace (a - b - 1 + 1) with (a - b) by lia.
    apply Qnot_le_lt. intros Hle. apply Qle_bool_iff in Hle. congruence.
Qed.

(** [roundHalfEven y] is an integer nearest to [y]. *)
Lemma roundHalfEven_nearest (y : Q) (j : Z) :
  (Qabs (inject_Z (roundHalfEven y) - y) <= Qabs (inject_Z j - y))%Q.
Proof.
  pose proof (Qfloor_le y) as Hf. pose proof (Qlt_floor y) as Hc.
  rewrite inject_Z_plus in Hc. change (inject_Z 1) with 1%Q in Hc.
  assert (j <= Qfloor y \/ Qfloor y + 1 <= j) as Hj by lia.
  assert (inject_Z j <= inject_Z (Qfloor y) \/ inject_Z (Qfloor y) + 1 <= inject_Z j)%Q as Hj'.
  { destruct Hj as [Hj | Hj]; [left | right].
    - rewrite <- Zle_Qle. exact Hj.
    - change 1%Q with (inject_Z 1). rewrite <- inject_Z_plus, <- Zle_Qle. exact Hj. }
  clear Hj.
  destruct (roundHalfEven_cases y) as [[-> Hd] | [-> Hd]].
  - revert Hf Hc Hj' Hd. generalize (inject_Z (Qfloor y)) (inject_Z j).
    intros f q Hf Hc Hj Hd.
    assert (Qabs (f - y) == - (f - y))%Q as -> by (apply Qabs_neg; lra).
    destruct Hj as [Hj | Hj].
    + assert (Qabs (q - y) == - (q - y))%Q as -> by (apply Qabs_neg; lra). lra.
    + assert (Qabs (q - y) == q - y)%Q as -> by (apply Qabs_pos; lra). lra.
  - rewrite inject_Z_plus. change (inject_Z 1) with 1%Q.
    revert Hf Hc Hj' Hd. generalize (inject_Z (Qfloor y)) (inject_Z j).
    intros f q Hf Hc Hj Hd.
    assert (Qabs (f + 1 - y) == f + 1 - y)%Q as -> by (apply Qabs_pos; lra).
    destruct Hj as [Hj | Hj].
    + assert (Qabs (q - y) == - (q - y))%Q as -> by (apply Qabs_neg; lra). lra.
    + assert (Qabs (q - y) == q - y)%Q as -> by (apply Qabs_pos; lra). lra.
Qed.

(** [roundPositive x] is a multiple of the spacing at [x] nearest to [x]. *)
Lemma roundPositive_nearest (x : Q) (j : Z) :
  let u := pow2 (ulpExponent x) in
  (Qabs (roundPositive x - x) <= Qabs (inject_Z j * u - x))%Q.
Proof.
  intros u. unfold roundPositive. fold u.
  pose proof (pow2_pos (ulpExponent x)) as Hu. fold u in Hu.
  pose proof (roundHalfEven_nearest (x / u) j) as H.
  assert (forall q : Q, q * u - x == (q - x / u) * u)%Q as E by (intros q; field; lra).
  rewrite !E, !Qabs_Qmult.
  assert (Qabs u == u)%Q as -> by (apply Qabs_pos; lra).
  apply Qmult_le_compat_r; [exact H | lra].
Qed.

(** The significand of [roundPositive x] has at most 53 bits (it is [2^53]
    when [x] is rounded up to the next power of two), and its spacing is at
    least that of the subnormal numbers. *)
Lemma roundPositive_significand (x : Q) :
  (0 < x)%Q →
  0 <= roundHalfEven (x / pow2 (ulpExponent x)) <= 2 ^ 53
  ∧ -1074 <= ulpExponent x.
Proof.
  intros H0. split; [| apply Z.le_max_r].
  pose proof (pow2_pos (ulpExponent x)) as Hu.
  destruct (binade_spec x H0) as [_ Hhi].
  assert (pow2 (binade x + 1) <= pow2 (ulpExponent x + 53))%Q as Hle.
  { rewrite !pow2_Qpower. apply Qpower_le_compat_l; [| discriminate].
    unfold ulpExponent. lia. }
  assert (pow2 (ulpExponent x + 53) == pow2 (ulpExponent x) * inject_Z (2 ^ 53))%Q as E.
  { rewrite !pow2_Qpower, Zpower_Qpower by lia.
    apply Qpower_plus. discriminate. }
  rewrite E in Hle. split.
  - apply roundHalfEven_nonneg. apply Qle_shift_div_l; [exact Hu |].
    rewrite Qmult_0_l. apply Qlt_le_weak, H0.
  - apply roundHalfEven_le. apply Qle_shift_div_r; [exact Hu |].
    rewrite Qmult_comm. apply Qlt_le_weak.
    apply Qlt_le_trans with (pow2 (binade x + 1)); assumption.
Qed.

(** *** Rounding to a number of decimals *)

Lemma Qfloor_bounds (x : Q) (lo hi : Z) :
  (inject_Z lo <= x)%Q → (x < inject_Z hi)%Q → lo <= Qfloor x < hi.
Proof.
  intros Hlo Hhi. split.
  - rewrite <- (Qfloor_Z lo). by apply Qfloor_resp_le.
  - apply Z.lt_nge. intros Hge.
    apply (Qlt_not_le _ _ Hhi).
    apply Qle_trans with (inject_Z (Qfloor x)); [| apply Qfloor_le].
    rewrite <- Zle_Qle. exact Hge.
Qed.

(** Rounding a number of [[0, 10]] to thousandths gives between 0 and
    10000 thousandths, both ends included. *)
Lemma roundScaled_3_bounds (x : Q) :
  (0 <= x)%Q → (x <= 10)%Q → 0 <= roundScaled 3 x <= 10000.
Proof.
  intros H0 H10. unfold roundScaled.
  change (10 ^ Z.of_nat 3) with 1000.
  assert (0 <= Qfloor (x * inject_Z 1000 + (1 # 2)) < 10001); [| lia].
  apply Qfloor_bounds.
  - change (inject_Z 0) with 0%Q.
    apply Qle_trans with (x * inject_Z 1000)%Q.
    + apply Qmult_le_0_compat; [done | discriminate].
    + rewrite <- (Qplus_0_r (x * inject_Z 1000)) at 1.
      apply Qplus_le_r. discriminate.
  - unfold Qlt, Qle in *. destruct x as [a b]. simpl in *. lia.
Qed.

(** From 9.9995 on, a number up to 10 is rounded to 10000 thousandths. *)
Lemma roundScaled_3_top (x : Q) :
  (19999 # 2000 <= x)%Q → (x <= 10)%Q → roundScaled 3 x = 10000.
Proof.
  intros Hlo Hhi. unfold roundScaled.
  change (10 ^ Z.of_nat 3) with 1000.
  assert (10000 <= Qfloor (x * inject_Z 1000 + (1 # 2)) < 10001); [| lia].
  apply Qfloor_bounds; unfold Qlt, Qle in *; destruct x as [a b]; simpl in *; lia.
Qed.

(** The rendering of 0 .. 10000 thousandths has three decimals and denotes
    a number of [[0, 10]]. *)
Lemma renderFixed_3_ok (n : Z) :
  0 <= n <= 10000 →
  hasDecimals 3 (renderFixed 3 n) = true ∧
  ∃ q, parseFixed (renderFixed 3 n) = Some q ∧ (0 <= q)%Q ∧ (q <= 10)%Q.
Proof.
  intros Hn. split; [apply renderFixed_hasDecimals |].
  destruct (renderFixed_parse 2 n) as (q & Hq & Heq); [lia |].
  exists q. split; [done |].
  change (10 ^ Z.of_nat 3) with 1000 in Heq.
  assert (q == n # 1000)%Q as ->.
  { rewrite Heq. by rewrite <- (Qmake_Qdiv n 1000). }
  unfold Qle. simpl. lia.
Qed.

End JsFacts.

(** ** The panel: connect, measure, refresh *)

Module PanelFacts.
Import Js JsFacts Panel Settings.

(** *** Scheduling invariant: when no effect is due, the installed interval
    sees the current [isConnected]. *)
Lemma closureCurrent_mount : closureCurrent mount.
Proof. unfold closureCurrent. simpl. discriminate. Qed.

Lemma closureCurrent_step instrument p e p' ts :
  closureCurrent p → step instrument p e = Some (p', ts) → closureCurrent p'.
Proof.
  unfold closureCurrent. intros Inv Hstep.
  destruct e as [r | | r | r]; simpl in Hstep;
    destruct (effectDue p) eqn:Hdue; try discriminate.
  - inversion Hstep; subst; clear Hstep. simpl.
    destruct (connectedDraw r), (isConnected (state p)); simpl; congruence.
  - inversion Hstep; subst; clear Hstep. simpl.
    destruct (isConnected (state p)); simpl; discriminate.
  - unfold handleMeasure in Hstep.
    destruct (isConnected (state p)) eqn:Hc; simpl in Hstep;
      inversion Hstep; subst; clear Hstep; simpl; intros _; rewrite ?Hc; auto.
  - inversion Hstep; subst; clear Hstep. simpl. intros _.
    unfold intervalCallback. destruct (closure p); simpl; auto.
Qed.

Lemma closureCurrent_run instrument es : ∀ p p' ts,
  closureCurrent p → run instrument p es = Some (p', ts) → closureCurrent p'.
Proof.
  induction es as [| e es IH]; intros p p' ts Inv Hrun; simpl in Hrun.
  - by inversion Hrun; subst.
  - destruct (step instrument p e) as [[p1 ts1] |] eqn:Hstep; [| discriminate].
    destruct (run instrument p1 es) as [[p2 ts2] |] eqn:Hrest; [| discriminate].
    inversion Hrun; subst; clear Hrun.
    eapply IH; [| exact Hrest]. eapply closureCurrent_step; eauto.
Qed.

(** The periodic refresh of a panel reached from [mount] acts on the
    current connection state. *)
Lemma tick_sees_current_connection instrument es p ts r :
  run instrument mount es = Some (p, ts) → effectDue p = false →
  step instrument p (Tick r) =
    Some (mkMounted (if isConnected (state p)
                     then setCurrentValue (randomReading r) (state p)
                     else state p) false (closure p), []).
Proof.
  intros Hrun Hdue.
  pose proof (closureCurrent_run _ _ _ _ _ closureCurrent_mount Hrun Hdue) as Hc.
  simpl. rewrite Hdue. unfold intervalCallback. by rewrite Hc.
Qed.

(** *** Readings *)

(** The literal [0.3] of the effect is the binary64 value nearest to 3/10. *)
Example lit_0_3_is_the_double : Qred (roundDouble (3 # 10)) = lit_0_3.
Proof. vm_compute. reflexivity. Qed.

(** Products the exact arithmetic gets wrong in the third decimal: the
    product of the Number 0.01875 with 10 is the tie 0.1875 (the exact
    product lies below it), shown as 0.188; the product of the Number
    0.99995 with 10 lies below 9.9995 (the exact product lies above),
    shown as 9.999. *)
Example reading_of_0_01875 :
  (readingProduct (roundDouble (3 # 160)) == 3 # 16)%Q
  ∧ (roundDouble (3 # 160) * 10 < 3 # 16)%Q
  ∧ randomReading (roundDouble (3 # 160)) = "0.188".
Proof. repeat split; vm_compute; reflexivity. Qed.
Example reading_of_0_99995 :
  Qred (roundDouble (19999 # 20000)) = (9006748894778255 # 9007199254740992)%Q
  ∧ (readingProduct (9006748894778255 # 9007199254740992) < 19999 # 2000)%Q
  ∧ (19999 # 2000 <= (9006748894778255 # 9007199254740992) * 10)%Q
  ∧ randomReading (9006748894778255 # 9007199254740992) = "9.999".
Proof. repeat split; vm_compute; congruence. Qed.
Example reading_of_0_4004 :
  randomReading (1803466470780515 # 4503599627370496) = "4.005".
Proof. vm_compute. reflexivity. Qed.

Lemma reading_raw_range (r : Q) : unitDraw r → (0 <= r * 10)%Q ∧ (r * 10 < 10)%Q.
Proof.
  intros [H0 H1]. destruct r as [a b]. unfold Qle, Qlt in *. simpl in *. lia.
Qed.

(** The product of a draw of [[0, 1)] with 10 lies in [[0, 10]]. *)
Lemma readingProduct_range (r : Q) :
  unitDraw r → (0 <= readingProduct r)%Q ∧ (readingProduct r <= 10)%Q.
Proof.
  intros Hr. destruct (reading_raw_range r Hr) as [H0 H10].
  apply roundDouble_range; [exact H0 | apply Qlt_le_weak, H10].
Qed.

(** When the draw is a Number, as the results of [Math.random()] are, the
    product is below 10. *)
Lemma readingProduct_below_10 (r : Q) :
  unitDraw r → isDouble r → (readingProduct r < 10)%Q.
Proof.
  intros Hr Hd. destruct (reading_raw_range r Hr) as [H0 _].
  destruct Hr as [Hr0 Hr1].
  pose proof (double_below_one r Hr0 Hr1 Hd) as Hmax.
  apply roundDouble_below_10; [exact H0 |].
  change (1 # 2 ^ 53)%Q with (1 # 9007199254740992)%Q in Hmax.
  change (10 # 2 ^ 53)%Q with (10 # 9007199254740992)%Q.
  lra.
Qed.

Lemma randomReading_render (r : Q) :
  unitDraw r → randomReading r = renderFixed 3 (roundScaled 3 (readingProduct r)).
Proof.
  intros Hr. destruct (readingProduct_range r Hr) as [H0 _].
  unfold randomReading, toFixed.
  destruct (Qlt_le_dec (readingProduct r) 0) as [Hneg | _].
  - exfalso. by apply (Qlt_not_le _ _ Hneg).
  - simpl String.app at 1.
    assert (Qabs (readingProduct r) == readingProduct r)%Q as Habs
      by (by apply Qabs_pos).
    unfold roundScaled. by rewrite Habs.
Qed.

(** *** Measuring *)



(** *** Connecting *)

(** C1, counterexample.  On a Connected session the connect handler reports
    success but leaves the session Disconnected, and on a Disconnected
    session the same handler (there is no other to disconnect with) leaves
    it Connected; the second of two connects in a row on a mounted panel
    that starts Disconnected leaves it Disconnected (the draws 0.125 and
    0.5 of the effect keep the state each click has set). *)
Lemma connect_on_connected_disconnects :
  Connected connectedState
  ∧ reports (handleConnect ∅ connectedState) = Some (toast_success "Disconnected")
  ∧ Disconnected (fst (handleConnect ∅ connectedState))
  ∧ Disconnected initialState
  ∧ Connected (fst (handleConnect ∅ initialState))
  ∧ ∃ p, run ∅ mount [RunEffect (1 # 8); Connect; RunEffect (1 # 2); Connect;
                       RunEffect (1 # 8)]
         = Some (p, [toast_success "Connected"; toast_success "Disconnected"])
       ∧ Disconnected (state p).
Proof.
  repeat split. eexists. split; [vm_compute; reflexivity | reflexivity].
Qed.

(** C1, amended.  Connect and disconnect are one toggle: for every
    instrument, the handler always reports success and sets the session to
    the opposite of the state it was invoked in, Connected (reporting
    "Connected") when it was Disconnected and Disconnected (reporting
    "Disconnected") when it was Connected, leaving the displayed value
    alone; on a mounted panel the change makes the connection effect due
    again. *)
Theorem handleConnect_toggles (instrument : Obj) (s : PanelState) :
  isSuccess (reports (handleConnect instrument s)) = true
  ∧ reports (handleConnect instrument s)
      = Some (toast_success (if isConnected s then "Disconnected" else "Connected"))
  ∧ isConnected (fst (handleConnect instrument s)) = negb (isConnected s)
  ∧ currentValue (fst (handleConnect instrument s)) = currentValue s
  ∧ ∀ p : Mounted,
      match step instrument p Connect with
      | Some (p', ts) =>
          isConnected (state p') = negb (isConnected (state p))
          ∧ effectDue p' = true
          ∧ isSuccess (head ts) = true
      | None => effectDue p = true
      end.
Proof.
  repeat split.
  intros p. simpl. destruct (effectDue p); [done |].
  simpl. by destruct (isConnected (state p)).
Qed.

(** *** The initial state *)

Lemma connectedDraw_spec (r : Q) : connectedDraw r = true ↔ (lit_0_3 < r)%Q.
Proof.
  unfold connectedDraw. rewrite negb_true_iff, <- not_true_iff_false, Qle_bool_iff.
  split; [apply Qnot_le_lt | apply Qlt_not_le].
Qed.

(** C8, counterexample.  A trace without any connect: the effect that runs
    on mount draws 0.5 and the session is Connected. *)
Lemma connected_before_any_connect :
  let es := [RunEffect (1 # 2); RunEffect (1 # 2)] in
  forallb (fun e => negb (isConnectEvent e)) es = true
  ∧ ∃ p, run ∅ mount es = Some (p, [])
       ∧ Connected (state p) ∧ effectDue p = false.
Proof.
  split; [reflexivity |].
  eexists. split; [vm_compute; reflexivity | split; reflexivity].
Qed.

(** C8, amended.  The session of a panel is initialised Disconnected, but
    the effect that runs on mount, before any other event can be handled,
    replaces it by the outcome of a random draw: Connected exactly when the
    draw exceeds 0.3.  Afterwards Connected and Disconnected are the only
    states, and the state changes only through the connect/disconnect
    toggle and the re-runs of that effect; measure and the periodic refresh
    never change it. *)
Theorem session_initial_and_transitions (instrument : Obj) :
  Disconnected (state mount)
  ∧ (∀ e, match step instrument mount e with
          | Some (p', ts) =>
              ts = [] ∧ ∃ r, e = RunEffect r
                           ∧ (Connected (state p') ↔ (lit_0_3 < r)%Q)
          | None => isEffectEvent e = false
          end)
  ∧ (∀ p e, match step instrument p e with
            | Some (p', _) =>
                isConnected (state p') = isConnected (state p)
                ∨ isConnectEvent e || isEffectEvent e = true
            | None => True
            end).
Proof.
  split; [reflexivity |]. split.
  - intros [r | | r | r]; simpl; try done. split; [done |].
    exists r. split; [done | apply connectedDraw_spec].
  - intros p [r | | r | r]; simpl; destruct (effectDue p); simpl; auto.
    + unfold handleMeasure. destruct (isConnected (state p)) eqn:Hc; simpl; auto.
    + unfold intervalCallback. destruct (closure p); simpl; auto.
Qed.

(** *** What a measurement produces *)

(** The settings of the instrument play no part in a measurement. *)
Lemma handleMeasure_ignores_instrument (i1 i2 : Obj) (r : Q) (s : PanelState) :
  handleMeasure i1 r s = handleMeasure i2 r s.
Proof. reflexivity. Qed.

(** C3, counterexample.  An instrument set to the 0.1 V range, resistance
    measurement, 4.5 digits; its session is Connected and the draw is 0.5.
    The measurement succeeds with the reading 5.000, fifty times the range
    limit, shown with the unit "V DC". *)
Lemma reading_exceeds_configured_range :
  let instrument : Obj :=
    <["range" := VStr "0.1"]> (<["measurementType" := VStr "RESISTANCE"]> (
    <["resolution" := VStr "4.5"]> defaultFormData)) in
  let out := handleMeasure instrument (1 # 2) connectedState in
  meetsConstraints instrument = true
  ∧ Connected connectedState
  ∧ isSuccess (reports out) = true
  ∧ display instrument (fst out) = ("5.000", "V DC")
  ∧ rangeLimit (prop "range" instrument) = Some (1 # 10)
  ∧ ∃ q, parseFixed (currentValue (fst out)) = Some q
       ∧ (q == 5)%Q ∧ ¬ (q <= 1 # 10)%Q.
Proof.
  repeat split; try (vm_compute; reflexivity).
  eexists. split; [vm_compute; reflexivity |].
  split; [reflexivity |]. vm_compute. intros H. by apply H.
Qed.

(** C3, amended.  For every instrument whose session is Connected, a
    measure succeeds and sets the displayed (last) value to the reading
    [(Math.random() * 10).toFixed(3)], which is the same for every
    configured measurementType, range and resolution; the unit shown is
    "V DC" for every instrument; nothing else of the session changes (the
    handler yields the new state and a toast, no timestamp). *)
Theorem measure_reading_ignores_settings (instrument : Obj) (r : Q) (s : PanelState) :
  Connected s →
  handleMeasure instrument r s
    = (setCurrentValue (randomReading r) s, [toast_success "Measurement taken"])
  ∧ display instrument (fst (handleMeasure instrument r s)) = (randomReading r, "V DC")
  ∧ isConnected (fst (handleMeasure instrument r s)) = true
  ∧ ∀ other : Obj,
      display other (fst (handleMeasure other r s))
      = display instrument (fst (handleMeasure instrument r s)).
Proof.
  unfold Connected. intros Hc. unfold handleMeasure, display, displayUnit.
  rewrite Hc. simpl. by rewrite Hc.
Qed.

(** The theorem at the default instrument, a Connected session, draw 0.25. *)
Lemma measure_reading_ignores_settings_witness :
  Connected connectedState
  ∧ display defaultFormData (fst (handleMeasure defaultFormData (1 # 4) connectedState))
    = ("2.500", "V DC").
Proof.
  split; [reflexivity |].
  destruct (measure_reading_ignores_settings defaultFormData (1 # 4) connectedState
              eq_refl) as (_ & H & _).
  rewrite H. vm_compute. reflexivity.
Defined.

Lemma displayable_reading (r : Q) : unitDraw r → displayable (randomReading r).
Proof.
  intros Hr.
  pose proof (readingProduct_range r Hr) as [H0 H10].
  pose proof (roundScaled_3_bounds (readingProduct r) H0 H10) as Hn.
  pose proof (renderFixed_3_ok _ Hn) as [Hdec Hparse].
  by rewrite <- (randomReading_render r Hr) in Hdec, Hparse.
Qed.

Lemma displayable_initial : displayable (currentValue initialState).
Proof.
  split; [reflexivity |]. eexists. split; [vm_compute; reflexivity |].
  split; vm_compute; congruence.
Qed.

Lemma displayable_step instrument p e p' ts :
  from_option unitDraw True (drawOf e) →
  displayable (currentValue (state p)) →
  step instrument p e = Some (p', ts) →
  displayable (currentValue (state p')).
Proof.
  intros Hr Hd Hstep.
  destruct e as [r | | r | r]; simpl in Hr, Hstep;
    destruct (effectDue p); try discriminate.
  - by inversion Hstep; subst.
  - by inversion Hstep; subst.
  - unfold handleMeasure in Hstep. destruct (isConnected (state p));
      simpl in Hstep; inversion Hstep; subst; simpl; auto using displayable_reading.
  - inversion Hstep; subst. simpl. unfold intervalCallback.
    destruct (closure p); simpl; auto using displayable_reading.
Qed.

(** The displayed value of every panel reached from [mount] by events
    whose draws are in [[0, 1)] is well formed. *)
Lemma displayable_run instrument es : ∀ p p' ts,
  unitDraws es →
  displayable (currentValue (state p)) →
  run instrument p es = Some (p', ts) →
  displayable (currentValue (state p')).
Proof.
  induction es as [| e es IH]; intros p p' ts Hes Hd Hrun; simpl in Hrun.
  - by inversion Hrun; subst.
  - destruct (step instrument p e) as [[p1 ts1] |] eqn:Hstep; [| discriminate].
    destruct (run instrument p1 es) as [[p2 ts2] |] eqn:Hrest; [| discriminate].
    inversion Hrun; subst; clear Hrun.
    unfold unitDraws in Hes. inversion Hes as [| ? ? He Hes']; subst.
    eapply IH; [exact Hes' | | exact Hrest].
    eapply displayable_step; eauto.
Qed.

(** C10, counterexample.  The draw 1 - 2^-20 is a Number of [[0, 1)]; its
    product with 10, the Number 9.9999904..., is below 10, but it is
    displayed as "10.000": the value the panel produces is 10, outside
    [[0, 10)]. *)
Lemma reading_can_display_ten :
  let r := (1048575 # 1048576)%Q in
  unitDraw r ∧ isDouble r
  ∧ (readingProduct r == 10485750 # 1048576)%Q
  ∧ Connected connectedState
  ∧ currentValue (fst (handleMeasure ∅ r connectedState)) = "10.000"
  ∧ currentValue (intervalCallback true r connectedState) = "10.000"
  ∧ ∃ q, parseFixed "10.000" = Some q ∧ (q == 10)%Q ∧ ¬ (q < 10)%Q.
Proof.
  repeat split; try (vm_compute; reflexivity); try (vm_compute; congruence).
  eexists. split; [vm_compute; reflexivity |].
  split; [reflexivity |]. vm_compute. congruence.
Qed.

(** C10, amended.  Every reading the panel produces, by a measure while
    connected or by the periodic refresh while connected, is the product
    [Math.random() * 10], a Number in [[0, 10)], rounded to thousandths by
    [toFixed(3)]: it is displayed with exactly three decimals and the
    displayed number lies in the closed interval [[0, 10]] (10.000 is
    displayed for products from 9.9995 on), independently of the
    instrument's measurementType, range and resolution; a measure or a
    refresh while disconnected leaves the displayed value unchanged. *)
Theorem reading_range_and_format (instrument : Obj) (r : Q) (s : PanelState) :
  unitDraw r →
  currentValue (fst (handleMeasure instrument r s))
    = (if isConnected s then randomReading r else currentValue s)
  ∧ currentValue (intervalCallback (isConnected s) r s)
    = (if isConnected s then randomReading r else currentValue s)
  ∧ randomReading r = toFixed 3 (readingProduct r)
  ∧ ((0 <= readingProduct r)%Q ∧ (readingProduct r <= 10)%Q)
  ∧ (isDouble r → (readingProduct r < 10)%Q)
  ∧ hasDecimals 3 (randomReading r) = true
  ∧ (∃ q, parseFixed (randomReading r) = Some q ∧ (0 <= q)%Q ∧ (q <= 10)%Q)
  ∧ ((19999 # 2000 <= readingProduct r)%Q → randomReading r = "10.000")
  ∧ (∀ other : Obj, handleMeasure other r s = handleMeasure instrument r s).
Proof.
  intros Hr.
  pose proof (readingProduct_range r Hr) as [H0 H10].
  pose proof (displayable_reading r Hr) as [Hdec Hq].
  repeat split; try done.
  - unfold handleMeasure. by destruct (isConnected s).
  - unfold intervalCallback. by destruct (isConnected s).
  - intros Hd. by apply readingProduct_below_10.
  - intros Htop. rewrite (randomReading_render r Hr).
    by rewrite (roundScaled_3_top _ Htop H10).
Qed.

(** The theorem at draw 0.25 on a Connected session. *)
Lemma reading_range_and_format_witness :
  unitDraw (1 # 4)
  ∧ currentValue (fst (handleMeasure defaultFormData (1 # 4) connectedState)) = "2.500"
  ∧ (readingProduct (1 # 4) < 10)%Q.
Proof.
  assert (unitDraw (1 # 4)) as Hr by (split; vm_compute; congruence).
  assert (isDouble (1 # 4)) as Hd by (vm_compute; reflexivity).
  split; [exact Hr |].
  destruct (reading_range_and_format defaultFormData (1 # 4) connectedState Hr)
    as (H & _ & _ & _ & Hlt & _).
  split; [rewrite H; vm_compute; reflexivity | exact (Hlt Hd)].
Defined.

End PanelFacts.

(** ** The mutation hooks *)

Module ClientFacts.
Import Js Panel Settings Client PanelFacts.

Lemma demoFallback_spec (error : AxiosError) :
  demoFallback error = true ↔ networkErrorOr404 error.
Proof.
  unfold demoFallback, networkErrorOr404.
  rewrite orb_true_iff, !bool_decide_eq_true. done.
Qed.

Lemma demoFallback_404 (error : AxiosError) :
  status error = Some 404 → demoFallback error = true.
Proof. intros H. apply demoFallback_spec. by right. Qed.

Lemma spreadOver_lookup (k k' : string) (v : Value) (a : Obj) :
  spreadOver k v a !! k'
  = match a !! k' with
    | Some x => Some x
    | None => if decide (k = k') then Some v else None
    end.
Proof.
  unfold spreadOver. rewrite lookup_union.
  destruct (a !! k') as [x |] eqn:Ha; simpl.
  - by destruct ({[k := v]} !! k').
  - destruct (decide (k = k')) as [-> | Hne].
    + by rewrite lookup_singleton_eq.
    + by rewrite lookup_singleton_ne.
Qed.

(** The outcome of each mutation as a function of the server's reply. *)
Lemma addInstrument_outcome (http : Server) (instrumentData : Obj) (c : Clock) :
  fst (addInstrument http instrumentData c)
  = match http (createRequest instrumentData) with
    | Response data => Resolved data
    | Failure error =>
        if demoFallback error then Resolved (DObj (synthesizedNew instrumentData c))
        else Rejected error
    end.
Proof.
  unfold addInstrument, createRequest.
  destruct (http _) as [data | error]; [done |].
  by destruct (demoFallback error).
Qed.

Lemma updateInstrument_outcome (http : Server) (arg : Obj) (c : Clock) :
  fst (updateInstrument http arg c)
  = match http (updateRequest arg) with
    | Response data => Resolved data
    | Failure error =>
        if demoFallback error then Resolved (DObj (synthesizedUpdate arg c))
        else Rejected error
    end.
Proof.
  unfold updateInstrument, updateRequest.
  destruct (http _) as [data | error]; [done |].
  by destruct (demoFallback error).
Qed.

Lemma deleteInstrument_outcome (http : Server) (id : Value) (c : Clock) :
  fst (deleteInstrument http id c)
  = match http (deleteRequest id) with
    | Response _ => Resolved id
    | Failure error => if demoFallback error then Resolved id else Rejected error
    end.
Proof.
  unfold deleteInstrument, deleteRequest.
  destruct (http _) as [data | error]; [done |].
  by destruct (demoFallback error).
Qed.

(** The properties of the synthesized records. *)
Lemma synthesizedNew_lookup (instrumentData : Obj) (c : Clock) :
  synthesizedNew instrumentData c !! "id"
    = Some (default (VNum (c 0%nat)) (instrumentData !! "id"))
  ∧ synthesizedNew instrumentData c !! "createdAt" = Some (VIso (c 1%nat))
  ∧ synthesizedNew instrumentData c !! "updatedAt" = Some (VIso (c 2%nat))
  ∧ ∀ k, k ≠ "id" → k ≠ "createdAt" → k ≠ "updatedAt" →
         synthesizedNew instrumentData c !! k = instrumentData !! k.
Proof.
  unfold synthesizedNew. repeat split.
  - rewrite !lookup_insert_ne by done. rewrite spreadOver_lookup.
    destruct (instrumentData !! "id"); [done |]. by rewrite decide_True.
  - rewrite lookup_insert_ne by done. by rewrite lookup_insert_eq.
  - by rewrite lookup_insert_eq.
  - intros k H1 H2 H3. rewrite !lookup_insert_ne by done.
    rewrite spreadOver_lookup. destruct (instrumentData !! k); [done |].
    by rewrite decide_False.
Qed.

Lemma synthesizedUpdate_lookup (arg : Obj) (c : Clock) :
  synthesizedUpdate arg c !! "id" = Some (prop "id" arg)
  ∧ synthesizedUpdate arg c !! "updatedAt" = Some (VIso (c 0%nat))
  ∧ ∀ k, k ≠ "id" → k ≠ "updatedAt" → synthesizedUpdate arg c !! k = arg !! k.
Proof.
  unfold synthesizedUpdate. repeat split.
  - rewrite lookup_insert_ne by done. rewrite spreadOver_lookup.
    rewrite lookup_delete_eq. by rewrite decide_True.
  - by rewrite lookup_insert_eq.
  - intros k H1 H2. rewrite lookup_insert_ne by done.
    rewrite spreadOver_lookup, lookup_delete_ne by done.
    destruct (arg !! k); [done |]. by rewrite decide_False.
Qed.

(** *** Unknown ids *)

(** C4, counterexample.  The server answers 404 (the id 7 is not in its
    store): delete resolves with the id, update resolves with a record
    built from the supplied fields. *)
Lemma unknown_id_delete_update_resolve :
  let arg : Obj := <["id" := VNum 7]> (<["name" := VStr "x"]> ∅) in
  answers 404 (deleteRequest (VNum 7)) = Failure (mkAxiosError (Some "ERR_BAD_REQUEST") (Some 404))
  ∧ answers 404 (updateRequest arg) = Failure (mkAxiosError (Some "ERR_BAD_REQUEST") (Some 404))
  ∧ fst (deleteInstrument (answers 404) (VNum 7) tickingClock) = Resolved (VNum 7)
  ∧ fst (updateInstrument (answers 404) arg tickingClock)
    = Resolved (DObj (<["id" := VNum 7]> (<["name" := VStr "x"]> (
                      <["updatedAt" := VIso 1000]> ∅)))).
Proof.
  repeat split; vm_compute; reflexivity.
Qed.

(** C4, amended.  For every id that is not present in the store, that is,
    whenever the server answers the request for that id with 404, update
    and delete do not fail: delete resolves with the id and update resolves
    with the supplied fields, the id and a refreshed updatedAt.  Connect
    and measure act on the state of a panel without consulting the store:
    connect always reports success and measure reports success or
    NotConnected.  (The client has no get by id.) *)
Theorem unknown_id_is_reported_as_success
    (http : Server) (arg : Obj) (id : Value) (c : Clock) (eU eD : AxiosError) :
  http (updateRequest arg) = Failure eU → status eU = Some 404 →
  http (deleteRequest id) = Failure eD → status eD = Some 404 →
  fst (deleteInstrument http id c) = Resolved id
  ∧ (∃ o, fst (updateInstrument http arg c) = Resolved (DObj o)
        ∧ o !! "id" = Some (prop "id" arg)
        ∧ o !! "updatedAt" = Some (VIso (c 0%nat))
        ∧ ∀ k, k ≠ "id" → k ≠ "updatedAt" → o !! k = arg !! k)
  ∧ (∀ (instrument : Obj) (r : Q) (s : PanelState),
        isSuccess (reports (handleConnect instrument s)) = true
        ∧ (reports (handleMeasure instrument r s) = Some NotConnected
           ∨ isSuccess (reports (handleMeasure instrument r s)) = true)).
Proof.
  intros HU H404U HD H404D. split; [| split].
  - rewrite deleteInstrument_outcome, HD. by rewrite demoFallback_404.
  - exists (synthesizedUpdate arg c).
    split; [| apply synthesizedUpdate_lookup].
    rewrite updateInstrument_outcome, HU. by rewrite demoFallback_404.
  - intros instrument r s. split; [done |].
    unfold handleMeasure, reports. destruct (isConnected s); simpl; auto.
Qed.

(** The theorem at a server that answers 404 to everything, id 7. *)
Lemma unknown_id_is_reported_as_success_witness :
  status (mkAxiosError (Some "ERR_BAD_REQUEST") (Some 404)) = Some 404
  ∧ fst (deleteInstrument (answers 404) (VNum 7) tickingClock) = Resolved (VNum 7).
Proof.
  split; [reflexivity |].
  exact (proj1 (unknown_id_is_reported_as_success (answers 404)
                  (<["id" := VNum 7]> ∅) (VNum 7) tickingClock
                  (mkAxiosError (Some "ERR_BAD_REQUEST") (Some 404))
                  (mkAxiosError (Some "ERR_BAD_REQUEST") (Some 404))
                  eq_refl eq_refl eq_refl eq_refl)).
Defined.

(** *** Creation *)

(** C5, counterexample.  A payload with address 99 and a measurement type
    outside the list violates the constraints; with the server out of
    reach, create resolves with a record that carries both values. *)
Lemma invalid_payload_is_accepted :
  let payload : Obj :=
    <["gpibAddress" := VStr "99"]> (<["measurementType" := VStr "BOGUS"]> dmm1) in
  meetsConstraints payload = false
  ∧ addressInRange (prop "gpibAddress" payload) = false
  ∧ ∃ o, fst (addInstrument unreachable payload tickingClock) = Resolved (DObj o)
       ∧ o !! "gpibAddress" = Some (VStr "99")
       ∧ o !! "measurementType" = Some (VStr "BOGUS")
       ∧ o !! "id" = Some (VNum 1000).
Proof.
  repeat split; try (vm_compute; reflexivity).
  eexists. repeat split; vm_compute; reflexivity.
Qed.

(** C5, amended.  Create checks no constraint itself.  For every payload,
    whether or not it meets the constraints: when the server answers with
    a record, that record is returned; when the request fails with
    ERR_NETWORK or 404, nothing is stored and the payload's fields are
    returned with createdAt and updatedAt assigned from the clock and id
    assigned from the clock unless the payload has one; every other failure
    (a validation failure reported by the server included) fails the
    operation with that error.  The address range [[0, 30]] and the closed
    enumerations are those of the form's input and selects. *)
Theorem create_checks_no_constraint
    (http : Server) (instrumentData : Obj) (c : Clock) :
  (∀ n, addressInRange (VNum n) = true ↔ 0 <= n <= 30)
  ∧ match http (createRequest instrumentData) with
    | Response data => fst (addInstrument http instrumentData c) = Resolved data
    | Failure error =>
        if demoFallback error then
          ∃ o, fst (addInstrument http instrumentData c) = Resolved (DObj o)
             ∧ o !! "id" = Some (default (VNum (c 0%nat)) (instrumentData !! "id"))
             ∧ o !! "createdAt" = Some (VIso (c 1%nat))
             ∧ o !! "updatedAt" = Some (VIso (c 2%nat))
             ∧ ∀ k, k ≠ "id" → k ≠ "createdAt" → k ≠ "updatedAt" →
                    o !! k = instrumentData !! k
        else fst (addInstrument http instrumentData c) = Rejected error
    end.
Proof.
  split; [intros n; unfold addressInRange, gpibAddressMin, gpibAddressMax; lia |].
  rewrite addInstrument_outcome.
  destruct (http _) as [data | error]; [done |].
  destruct (demoFallback error); [| done].
  exists (synthesizedNew instrumentData c).
  split; [done | apply synthesizedNew_lookup].
Qed.

(** In the synthesized record the two timestamps are two readings of the
    clock: they agree exactly when the clock has not advanced in between. *)
Lemma synthesizedNew_timestamps (instrumentData : Obj) (c : Clock) :
  synthesizedNew instrumentData c !! "createdAt"
    = synthesizedNew instrumentData c !! "updatedAt"
  ↔ c 1%nat = c 2%nat.
Proof.
  destruct (synthesizedNew_lookup instrumentData c) as (_ & -> & -> & _).
  split; [by intros [= ->] | by intros ->].
Qed.

(** C7, the failing input.  The valid payload [dmm1] is created while the
    server is out of reach and the clock advances from 1000 to 1001 between
    the two timestamps: every field of the payload is in the record, but
    createdAt is the instant 1000 and updatedAt the instant 1001. *)
Lemma createdAt_differs_from_updatedAt :
  meetsConstraints dmm1 = true
  ∧ ∃ o, fst (addInstrument unreachable dmm1 tickingClock) = Resolved (DObj o)
       ∧ (∀ k v, dmm1 !! k = Some v → o !! k = Some v)
       ∧ o !! "createdAt" = Some (VIso 1000)
       ∧ o !! "updatedAt" = Some (VIso 1001)
       ∧ o !! "createdAt" ≠ o !! "updatedAt".
Proof.
  split; [vm_compute; reflexivity |].
  exists (synthesizedNew dmm1 tickingClock).
  split; [by rewrite addInstrument_outcome |].
  destruct (synthesizedNew_lookup dmm1 tickingClock) as (_ & Hc & Hu & Hk).
  split; [| split; [exact Hc | split; [exact Hu |]]].
  - intros k v Hkv. rewrite Hk; [done | | |]; intros ->; vm_compute in Hkv; discriminate.
  - rewrite Hc, Hu. vm_compute. discriminate.
Qed.

(** *** Update *)

(** C6, counterexample.  The stored record has a type and a createdAt; an
    update that supplies only a name, with the server out of reach,
    resolves with a record that has neither.  An update whose merged result
    is invalid (measurement type outside the list) resolves as well. *)
Lemma update_drops_unsupplied_fields :
  let rename : Obj := <["id" := VNum 1]> (<["name" := VStr "DMM2"]> ∅) in
  let retype : Obj := <["id" := VNum 1]> (<["measurementType" := VStr "BOGUS"]> ∅) in
  (storedDmm1 !! "createdAt" = Some (VIso 500)
   ∧ storedDmm1 !! "type" = Some (VStr "34401A")
   ∧ rename !! "createdAt" = None ∧ rename !! "type" = None)
  ∧ (∃ o, fst (updateInstrument unreachable rename tickingClock) = Resolved (DObj o)
        ∧ o !! "createdAt" = None ∧ o !! "type" = None)
  ∧ meetsConstraints (retype ∪ storedDmm1) = false
  ∧ (∃ o, fst (updateInstrument unreachable retype tickingClock) = Resolved (DObj o)
        ∧ o !! "measurementType" = Some (VStr "BOGUS")).
Proof.
  repeat split; try (vm_compute; reflexivity);
    eexists; repeat split; vm_compute; reflexivity.
Qed.

(** C6, amended.  For every id and every set of supplied fields, update
    sends the supplied fields (without the id) to the server and returns
    the server's record when it answers with one.  When the request fails
    with ERR_NETWORK or 404 it returns exactly the supplied fields together
    with the id and a refreshed updatedAt: fields that were not supplied,
    createdAt included, are absent from the result, and nothing is
    validated.  Every other failure (a validation failure reported by the
    server included) fails the operation with that error. *)
Theorem update_returns_supplied_fields_only
    (http : Server) (arg : Obj) (c : Clock) :
  body (updateRequest arg) = Some (delete "id" arg)
  ∧ match http (updateRequest arg) with
    | Response data => fst (updateInstrument http arg c) = Resolved data
    | Failure error =>
        if demoFallback error then
          ∃ o, fst (updateInstrument http arg c) = Resolved (DObj o)
             ∧ o !! "id" = Some (prop "id" arg)
             ∧ o !! "updatedAt" = Some (VIso (c 0%nat))
             ∧ ∀ k, k ≠ "id" → k ≠ "updatedAt" → o !! k = arg !! k
        else fst (updateInstrument http arg c) = Rejected error
    end.
Proof.
  split; [done |].
  rewrite updateInstrument_outcome.
  destruct (http _) as [data | error]; [done |].
  destruct (demoFallback error); [| done].
  exists (synthesizedUpdate arg c).
  split; [done | apply synthesizedUpdate_lookup].
Qed.

(** *** The fallback *)

(** C9, counterexample.  The server is out of reach.  A creation payload
    that carries an id of its own resolves to a record with that id, 5, not
    with the current time, 1000, the spread of the payload coming after the
    generated id; an update that supplies a createdAt resolves to a record
    that has it. *)
Lemma fallback_keeps_supplied_id_and_createdAt :
  let payload : Obj := <["id" := VNum 5]> dmm1 in
  let arg : Obj := <["createdAt" := VIso 7]> (<["id" := VNum 1]> dmm1) in
  networkErrorOr404 (mkAxiosError (Some "ERR_NETWORK") None)
  ∧ unreachable (createRequest payload)
    = Failure (mkAxiosError (Some "ERR_NETWORK") None)
  ∧ unreachable (updateRequest arg)
    = Failure (mkAxiosError (Some "ERR_NETWORK") None)
  ∧ tickingClock 0%nat = 1000
  ∧ (∃ o, fst (addInstrument unreachable payload tickingClock) = Resolved (DObj o)
        ∧ o !! "id" = Some (VNum 5)
        ∧ o !! "id" ≠ Some (VNum (tickingClock 0%nat)))
  ∧ (∃ o, fst (updateInstrument unreachable arg tickingClock) = Resolved (DObj o)
        ∧ o !! "createdAt" = Some (VIso 7)).
Proof.
  intros payload arg.
  split; [by left |]. split; [reflexivity |]. split; [reflexivity |].
  split; [reflexivity |]. split.
  - exists (synthesizedNew payload tickingClock).
    split; [rewrite addInstrument_outcome; reflexivity |].
    destruct (synthesizedNew_lookup payload tickingClock) as (H1 & _).
    assert (payload !! "id" = Some (VNum 5)) as Hid by reflexivity.
    rewrite Hid in H1. simpl in H1. rewrite H1. split; [done |].
    vm_compute. congruence.
  - exists (synthesizedUpdate arg tickingClock).
    split; [rewrite updateInstrument_outcome; reflexivity |].
    destruct (synthesizedUpdate_lookup arg tickingClock) as (_ & _ & H3).
    rewrite H3 by done. reflexivity.
Qed.

(** C9, amended.  When the request of a mutation fails with ERR_NETWORK or
    with a 404 response, the mutation resolves: addInstrument with the
    payload extended by createdAt and updatedAt set to the current time
    and, when the payload carries no id of its own, by an id that is the
    current time (an id of the payload is kept); updateInstrument with the
    supplied fields, the id and a refreshed updatedAt, adding no createdAt
    (one that is supplied is kept); deleteInstrument with the requested
    id.  Every other error is rethrown. *)
Theorem fallback_reports_success
    (http : Server) (instrumentData arg : Obj) (id : Value) (c : Clock)
    (eA eU eD : AxiosError) :
  http (createRequest instrumentData) = Failure eA →
  http (updateRequest arg) = Failure eU →
  http (deleteRequest id) = Failure eD →
  (networkErrorOr404 eA →
     ∃ o, fst (addInstrument http instrumentData c) = Resolved (DObj o)
        ∧ o !! "id" = Some (default (VNum (c 0%nat)) (instrumentData !! "id"))
        ∧ (instrumentData !! "id" = None → o !! "id" = Some (VNum (c 0%nat)))
        ∧ o !! "createdAt" = Some (VIso (c 1%nat))
        ∧ o !! "updatedAt" = Some (VIso (c 2%nat))
        ∧ ∀ k, k ≠ "id" → k ≠ "createdAt" → k ≠ "updatedAt" →
               o !! k = instrumentData !! k)
  ∧ (networkErrorOr404 eU →
     ∃ o, fst (updateInstrument http arg c) = Resolved (DObj o)
        ∧ o !! "id" = Some (prop "id" arg)
        ∧ o !! "updatedAt" = Some (VIso (c 0%nat))
        ∧ o !! "createdAt" = arg !! "createdAt"
        ∧ ∀ k, k ≠ "id" → k ≠ "updatedAt" → o !! k = arg !! k)
  ∧ (networkErrorOr404 eD → fst (deleteInstrument http id c) = Resolved id)
  ∧ (¬ networkErrorOr404 eA → fst (addInstrument http instrumentData c) = Rejected eA)
  ∧ (¬ networkErrorOr404 eU → fst (updateInstrument http arg c) = Rejected eU)
  ∧ (¬ networkErrorOr404 eD → fst (deleteInstrument http id c) = Rejected eD).
Proof.
  intros HA HU HD.
  rewrite addInstrument_outcome, updateInstrument_outcome, deleteInstrument_outcome.
  rewrite HA, HU, HD.
  repeat split.
  - intros Hf%demoFallback_spec. rewrite Hf.
    exists (synthesizedNew instrumentData c). split; [done |].
    destruct (synthesizedNew_lookup instrumentData c) as (H1 & H2 & H3 & H4).
    repeat split; try done. intros Hid. rewrite Hid in H1. done.
  - intros Hf%demoFallback_spec. rewrite Hf.
    exists (synthesizedUpdate arg c). split; [done |].
    destruct (synthesizedUpdate_lookup arg c) as (H1 & H2 & H3).
    repeat split; try done. rewrite H3 by done. done.
  - intros Hf%demoFallback_spec. by rewrite Hf.
  - intros Hf. destruct (demoFallback eA) eqn:E; [| done].
    by apply demoFallback_spec in E.
  - intros Hf. destruct (demoFallback eU) eqn:E; [| done].
    by apply demoFallback_spec in E.
  - intros Hf. destruct (demoFallback eD) eqn:E; [| done].
    by apply demoFallback_spec in E.
Qed.

(** The theorem at a server out of reach, payload [dmm1], id 1. *)
Lemma fallback_reports_success_witness :
  networkErrorOr404 (mkAxiosError (Some "ERR_NETWORK") None)
  ∧ (∃ o, fst (addInstrument unreachable dmm1 tickingClock) = Resolved (DObj o)
        ∧ o !! "id" = Some (VNum 1000)
        ∧ o !! "name" = Some (VStr "DMM1"))
  ∧ fst (deleteInstrument unreachable (VNum 1) tickingClock) = Resolved (VNum 1).
Proof.
  assert (networkErrorOr404 (mkAxiosError (Some "ERR_NETWORK") None)) as Hnet
    by (by left).
  assert (dmm1 !! "id" = None) as Hid0 by reflexivity.
  destruct (fallback_reports_success unreachable dmm1
              (<["id" := VNum 1]> dmm1) (VNum 1) tickingClock
              (mkAxiosError (Some "ERR_NETWORK") None)
              (mkAxiosError (Some "ERR_NETWORK") None)
              (mkAxiosError (Some "ERR_NETWORK") None)
              eq_refl eq_refl eq_refl)
    as (Hadd & _ & Hdel & _).
  split; [exact Hnet |]. split; [| exact (Hdel Hnet)].
  destruct (Hadd Hnet) as (o & Ho & _ & Hid & _ & _ & Hk).
  exists o. split; [exact Ho |]. split; [exact (Hid Hid0) |].
  rewrite Hk by done. reflexivity.
Defined.

End ClientFacts.

(** ** The panel as the user drives it *)

Module PanelUiFacts.
Import Js JsFacts Panel Settings Client PanelUi.

(** *** One step *)

(** The events of the rest of the panel leave the session alone, and the
    session's events leave the rest alone. *)
Lemma stepUi_frame instrument p ev p' out :
  stepUi instrument p ev = Some (p', out) →
  match ev with
  | Session _ =>
      isMinimized (state p') = isMinimized (state p)
      ∧ position (state p') = position (state p)
  | _ =>
      isConnected (state p') = isConnected (state p)
      ∧ currentValue (state p') = currentValue (state p)
      ∧ effectDue p' = false ∧ closure p' = closure p
  end.
Proof.
  intros Hstep. destruct ev as [e | | | x y | | c]; simpl in Hstep.
  - destruct (offered (state p) e); [| discriminate].
    destruct (step instrument p e) as [[p1 ts] |] eqn:Hs; [| discriminate].
    inversion Hstep; subst; clear Hstep.
    destruct e as [r | | r | r]; simpl in Hs;
      destruct (effectDue p); try discriminate.
    + by inversion Hs; subst.
    + by inversion Hs; subst.
    + unfold handleMeasure in Hs. destruct (isConnected (state p));
        simpl in Hs; by inversion Hs; subst.
    + inversion Hs; subst. unfold intervalCallback. by destruct (closure p).
  - destruct (effectDue p); [discriminate |].
    destruct (isMinimized (state p)); [discriminate |]. by inversion Hstep; subst.
  - destruct (effectDue p); [discriminate |].
    destruct (isMinimized (state p)); [| discriminate]. by inversion Hstep; subst.
  - destruct (effectDue p) eqn:Hd; [discriminate |]. by inversion Hstep; subst.
  - destruct (effectDue p) eqn:Hd; [discriminate |]. by inversion Hstep; subst.
  - destruct (effectDue p) eqn:Hd; [discriminate |]. by inversion Hstep; subst.
Qed.

Lemma closureCurrent_stepUi instrument p ev p' out :
  closureCurrent p → stepUi instrument p ev = Some (p', out) → closureCurrent p'.
Proof.
  intros Inv Hstep.
  destruct ev as [e | | | x y | | c].
  - simpl in Hstep. destruct (offered (state p) e); [| discriminate].
    destruct (step instrument p e) as [[p1 ts] |] eqn:Hs; [| discriminate].
    inversion Hstep; subst. eapply PanelFacts.closureCurrent_step; eauto.
  - pose proof (stepUi_frame _ _ _ _ _ Hstep) as (Hc & _ & _ & Hcl).
    simpl in Hstep. destruct (effectDue p) eqn:Hd; [discriminate |].
    intros _. rewrite Hc, Hcl. by apply Inv.
  - pose proof (stepUi_frame _ _ _ _ _ Hstep) as (Hc & _ & _ & Hcl).
    simpl in Hstep. destruct (effectDue p) eqn:Hd; [discriminate |].
    intros _. rewrite Hc, Hcl. by apply Inv.
  - pose proof (stepUi_frame _ _ _ _ _ Hstep) as (Hc & _ & _ & Hcl).
    simpl in Hstep. destruct (effectDue p) eqn:Hd; [discriminate |].
    intros _. rewrite Hc, Hcl. by apply Inv.
  - pose proof (stepUi_frame _ _ _ _ _ Hstep) as (Hc & _ & _ & Hcl).
    simpl in Hstep. destruct (effectDue p) eqn:Hd; [discriminate |].
    intros _. rewrite Hc, Hcl. by apply Inv.
  - pose proof (stepUi_frame _ _ _ _ _ Hstep) as (Hc & _ & _ & Hcl).
    simpl in Hstep. destruct (effectDue p) eqn:Hd; [discriminate |].
    intros _. rewrite Hc, Hcl. by apply Inv.
Qed.

(** Induction over the events of a run. *)
Lemma runUi_invariant (I : Mounted → Prop) instrument :
  (∀ p ev p' out, I p → stepUi instrument p ev = Some (p', out) → I p') →
  ∀ evs p p' out, I p → runUi instrument p evs = Some (p', out) → I p'.
Proof.
  intros Hstep evs. induction evs as [| ev evs IH]; intros p p' out Hp Hrun;
    simpl in Hrun.
  - by inversion Hrun; subst.
  - destruct (stepUi instrument p ev) as [[p1 o1] |] eqn:Hs; [| discriminate].
    destruct (runUi instrument p1 evs) as [[p2 o2] |] eqn:Hr; [| discriminate].
    inversion Hrun; subst. eapply IH; [| exact Hr]. eapply Hstep; eauto.
Qed.

(** *** Runs *)

(** X1.  In every panel reached from [mount], minimised or not, the
    periodic refresh acts on the current connection state: when no effect
    is due, a tick redraws the displayed value exactly when the session
    is connected and changes nothing otherwise. *)
Theorem refresh_follows_connection instrument evs p out r :
  runUi instrument mount evs = Some (p, out) →
  effectDue p = false →
  stepUi instrument p (Session (Tick r))
  = Some (mkMounted (if isConnected (state p)
                     then setCurrentValue (randomReading r) (state p)
                     else state p) false (closure p), []).
Proof.
  intros Hrun Hdue.
  assert (closureCurrent p) as Hc.
  { eapply (runUi_invariant closureCurrent); [| | exact Hrun].
    - intros ? ? ? ?. apply closureCurrent_stepUi.
    - apply PanelFacts.closureCurrent_mount. }
  simpl. rewrite Hdue. simpl. unfold intervalCallback. by rewrite (Hc Hdue).
Qed.

(** X1 at a panel that drew 0.5 twice on mount and was then minimised. *)
Lemma refresh_follows_connection_witness :
  ∃ p, runUi ∅ mount [Session (RunEffect (1 # 2)); Session (RunEffect (1 # 2)); Minimize]
       = Some (p, [])
     ∧ effectDue p = false
     ∧ (currentValue ∘ state ∘ fst) <$> stepUi ∅ p (Session (Tick (1 # 4)))
       = Some "2.500".
Proof.
  eexists. split; [vm_compute; reflexivity |]. split; [reflexivity |].
  rewrite (refresh_follows_connection ∅
             [Session (RunEffect (1 # 2)); Session (RunEffect (1 # 2)); Minimize]
             _ [] (1 # 4)); [| vm_compute; reflexivity | reflexivity].
  vm_compute. reflexivity.
Defined.

Lemma displayable_stepUi instrument p ev p' out :
  from_option unitDraw True (uiDrawOf ev) →
  displayable (currentValue (state p)) →
  stepUi instrument p ev = Some (p', out) →
  displayable (currentValue (state p')).
Proof.
  intros Hr Hd Hstep. destruct ev as [e | | | x y | | c];
    try (pose proof (stepUi_frame _ _ _ _ _ Hstep) as (_ & Hv & _); by rewrite Hv).
  simpl in Hstep, Hr. destruct (offered (state p) e); [| discriminate].
  destruct (step instrument p e) as [[p1 ts] |] eqn:Hs; [| discriminate].
  inversion Hstep; subst. eapply PanelFacts.displayable_step; eauto.
Qed.

(** X2.  Whatever the user and the timers do, as long as the draws are
    numbers of [[0, 1)], the value a panel displays always has exactly
    three decimals and denotes a number of [[0, 10]]. *)
Theorem displayed_value_always_well_formed instrument evs p out :
  Forall (fun ev => from_option unitDraw True (uiDrawOf ev)) evs →
  runUi instrument mount evs = Some (p, out) →
  displayable (currentValue (state p)).
Proof.
  intros Hdraws. revert p out.
  assert (∀ p0 p out, displayable (currentValue (state p0)) →
            runUi instrument p0 evs = Some (p, out) →
            displayable (currentValue (state p))) as Hgen.
  { induction Hdraws as [| ev evs Hev Hevs IH]; intros p0 p out Hd Hrun;
      simpl in Hrun.
    - by inversion Hrun; subst.
    - destruct (stepUi instrument p0 ev) as [[p1 o1] |] eqn:Hs; [| discriminate].
      destruct (runUi instrument p1 evs) as [[p2 o2] |] eqn:Hr; [| discriminate].
      inversion Hrun; subst. eapply IH; [| exact Hr].
      eapply displayable_stepUi; eauto. }
  intros p out. apply Hgen. apply PanelFacts.displayable_initial.
Qed.

(** X2 at a run that connects, measures with draw 0.25 and minimises. *)
Lemma displayed_value_always_well_formed_witness :
  ∃ p, runUi ∅ mount [Session (RunEffect (1 # 2)); Session (RunEffect (1 # 2));
                       Session (Measure (1 # 4)); Minimize] = Some (p, [Shown (toast_success "Measurement taken")])
     ∧ currentValue (state p) = "2.500"
     ∧ displayable (currentValue (state p)).
Proof.
  eexists. split; [vm_compute; reflexivity |]. split; [reflexivity |].
  eapply (displayed_value_always_well_formed ∅
            [Session (RunEffect (1 # 2)); Session (RunEffect (1 # 2));
             Session (Measure (1 # 4)); Minimize]);
    [| vm_compute; reflexivity].
  repeat constructor; simpl; vm_compute; congruence.
Defined.

Lemma stepUi_no_error instrument p ev p' out :
  stepUi instrument p ev = Some (p', out) → existsb isErrorOutput out = false.
Proof.
  intros Hstep. destruct ev as [e | | | x y | | c]; simpl in Hstep.
  - destruct (offered (state p) e) eqn:Hoff; [| discriminate].
    destruct e as [r | | r | r]; simpl in Hstep, Hoff;
      destruct (effectDue p); try discriminate.
    + by inversion Hstep; subst.
    + inversion Hstep; subst. by destruct (isConnected (state p)).
    + apply andb_prop in Hoff as [_ Hc]. unfold handleMeasure in Hstep.
      rewrite Hc in Hstep. simpl in Hstep. by inversion Hstep; subst.
    + by inversion Hstep; subst.
  - destruct (effectDue p || isMinimized (state p)); [discriminate |].
    by inversion Hstep; subst.
  - destruct (effectDue p || negb (isMinimized (state p))); [discriminate |].
    by inversion Hstep; subst.
  - destruct (effectDue p); [discriminate |]. by inversion Hstep; subst.
  - destruct (effectDue p); [discriminate |]. by inversion Hstep; subst.
  - destruct (effectDue p); [discriminate |]. inversion Hstep; subst.
    by destruct c.
Qed.

(** X3.  Through its rendered controls a panel never shows an error toast:
    the Measure button is disabled whenever the session is not connected,
    so the "Instrument not connected" branch of the handler is never
    reached by a click. *)
Theorem panel_never_shows_an_error instrument evs : ∀ p p' out,
  runUi instrument p evs = Some (p', out) → existsb isErrorOutput out = false.
Proof.
  induction evs as [| ev evs IH]; intros p p' out Hrun; simpl in Hrun.
  - by inversion Hrun; subst.
  - destruct (stepUi instrument p ev) as [[p1 o1] |] eqn:Hs; [| discriminate].
    destruct (runUi instrument p1 evs) as [[p2 o2] |] eqn:Hr; [| discriminate].
    inversion Hrun; subst. rewrite existsb_app.
    by rewrite (stepUi_no_error _ _ _ _ _ Hs), (IH _ _ _ Hr).
Qed.

(** X3 at a run that connects and then disconnects; on the disconnected
    panel the Measure click is not offered, while the handler itself
    would show the error. *)
Lemma panel_never_shows_an_error_witness :
  let evs := [Session (RunEffect (1 # 8)); Session Connect;
              Session (RunEffect (1 # 2)); Session (Measure (1 # 4));
              Session Connect; Session (RunEffect (1 # 8))] in
  ∃ p out, runUi ∅ mount evs = Some (p, out)
     ∧ existsb isErrorOutput out = false
     ∧ stepUi ∅ p (Session (Measure (1 # 4))) = None
     ∧ snd (handleMeasure ∅ (1 # 4) (state p)) = [toast_error "Instrument not connected"].
Proof.
  intros evs.
  destruct (runUi ∅ mount evs) as [[p out] |] eqn:Hrun; [| vm_compute in Hrun; discriminate].
  exists p, out. split; [reflexivity |].
  split; [exact (panel_never_shows_an_error ∅ evs mount p out Hrun) |].
  vm_compute in Hrun. inversion Hrun; subst. split; vm_compute; reflexivity.
Defined.

Lemma minimized_step instrument p ev p' out :
  isMinimized (state p) = true → effectDue p = false → isMaximize ev = false →
  stepUi instrument p ev = Some (p', out) →
  isConnected (state p') = isConnected (state p)
  ∧ isMinimized (state p') = true ∧ effectDue p' = false
  ∧ forallb isCallback out = true.
Proof.
  intros Hmin Hdue Hev Hstep.
  destruct ev as [e | | | x y | | c]; simpl in Hstep, Hev; try discriminate.
  - destruct e as [r | | r | r]; simpl in Hstep; rewrite ?Hmin, ?Hdue in Hstep;
      simpl in Hstep; try discriminate.
    inversion Hstep; subst. simpl. unfold intervalCallback.
    by destruct (closure p).
  - rewrite Hdue, Hmin in Hstep. discriminate.
  - rewrite Hdue in Hstep. by inversion Hstep; subst.
  - rewrite Hdue in Hstep. by inversion Hstep; subst.
  - rewrite Hdue in Hstep. inversion Hstep; subst. by destruct c.
Qed.

(** X4.  A minimised panel shows no Connect and no Measure button: until
    it is maximised its connection state cannot change and no connection
    draw runs, whatever else happens (ticks, drags, edit and delete
    clicks), and it shows no toast; the refresh keeps running. *)
Theorem minimized_panel_keeps_its_connection instrument evs : ∀ p p' out,
  isMinimized (state p) = true → effectDue p = false →
  forallb (fun ev => negb (isMaximize ev)) evs = true →
  runUi instrument p evs = Some (p', out) →
  isConnected (state p') = isConnected (state p)
  ∧ isMinimized (state p') = true ∧ effectDue p' = false
  ∧ forallb isCallback out = true.
Proof.
  induction evs as [| ev evs IH]; intros p p' out Hmin Hdue Hevs Hrun;
    simpl in Hrun, Hevs.
  - by inversion Hrun; subst.
  - apply andb_prop in Hevs as [Hev Hevs]. apply negb_true_iff in Hev.
    destruct (stepUi instrument p ev) as [[p1 o1] |] eqn:Hs; [| discriminate].
    destruct (runUi instrument p1 evs) as [[p2 o2] |] eqn:Hr; [| discriminate].
    inversion Hrun; subst.
    destruct (minimized_step _ _ _ _ _ Hmin Hdue Hev Hs) as (Hc1 & Hm1 & Hd1 & Ho1).
    destruct (IH _ _ _ Hm1 Hd1 Hevs Hr) as (Hc2 & Hm2 & Hd2 & Ho2).
    rewrite Hc2, Hc1, forallb_app, Ho1, Ho2. done.
Qed.

(** X4 at a connected, minimised panel that ticks, is dragged, ticks. *)
Lemma minimized_panel_keeps_its_connection_witness :
  let p := settled true "0.000" true (0, 0) in
  ∃ p', runUi ∅ p [Session (Tick (1 # 4)); DragStop 5 7; Session (Tick (1 # 2))]
        = Some (p', [])
      ∧ isConnected (state p') = true
      ∧ currentValue (state p') = "5.000"
      ∧ stepUi ∅ p' (Session Connect) = None.
Proof.
  intros p.
  destruct (runUi ∅ p [Session (Tick (1 # 4)); DragStop 5 7; Session (Tick (1 # 2))])
    as [[p' out] |] eqn:Hrun; [| vm_compute in Hrun; discriminate].
  destruct (minimized_panel_keeps_its_connection ∅
              [Session (Tick (1 # 4)); DragStop 5 7; Session (Tick (1 # 2))]
              p p' out eq_refl eq_refl eq_refl Hrun) as (Hc & Hm & Hd & Ho).
  vm_compute in Hrun. inversion Hrun; subst.
  eexists. split; [reflexivity |]. split; [exact Hc |].
  split; vm_compute; reflexivity.
Defined.

(** X5.  A click on Connect / Disconnect is followed by a new connection
    draw before anything else can happen, and the draw decides: the
    session is left Connected exactly when the draw exceeds 0.3, whatever
    the click reported, and the effect is due again unless the draw agrees
    with the click. *)
Theorem connect_is_overridden_by_the_draw instrument p r :
  effectDue p = false →
  ∃ p1 p',
    step instrument p Connect
      = Some (p1, [toast_success (if isConnected (state p) then "Disconnected"
                                  else "Connected")])
    ∧ (∀ e, isEffectEvent e = false → step instrument p1 e = None)
    ∧ step instrument p1 (RunEffect r) = Some (p', [])
    ∧ (Connected (state p') ↔ (lit_0_3 < r)%Q)
    ∧ effectDue p' = negb (eqb (connectedDraw r) (negb (isConnected (state p)))).
Proof.
  intros Hdue. simpl. rewrite Hdue. simpl.
  destruct (isConnected (state p)) eqn:Hc; simpl;
    (eexists; eexists; split; [reflexivity |]);
    (split; [by intros [r' | | r' | r'] | split; [reflexivity |]]); simpl;
    (split; [apply PanelFacts.connectedDraw_spec | by destruct (connectedDraw r)]).
Qed.

(** X5 at a disconnected panel and the draw 0.125: the click reports
    "Connected" and the panel is left Disconnected. *)
Lemma connect_is_overridden_by_the_draw_witness :
  let p := settled false "0.000" false (0, 0) in
  effectDue p = false
  ∧ ∃ p', run ∅ p [Connect; RunEffect (1 # 8)]
          = Some (p', [toast_success "Connected"])
        ∧ Disconnected (state p').
Proof.
  intros p. split; [reflexivity |].
  destruct (connect_is_overridden_by_the_draw ∅ p (1 # 8) eq_refl)
    as (p1 & p' & H1 & _ & H2 & Hc & _).
  exists p'. split.
  - cbn [run]. rewrite H1. cbn [run]. rewrite H2. reflexivity.
  - unfold Disconnected. destruct (isConnected (state p')) eqn:E; [| done].
    apply Hc in E. vm_compute in E. discriminate.
Defined.

(** *** What the panel shows of its instrument *)

(** X16.  Of the instrument it is given, a panel uses the name, the type
    and the address, and only to show them: two instruments that agree on
    these three are rendered alike in every state (the range and the
    resolution shown are fixed texts) and every run of events gives the
    same states and outputs for both, whatever their measurement type,
    range and resolution. *)
Theorem panel_uses_name_type_address_only (i1 i2 : Obj) :
  prop "name" i1 = prop "name" i2 →
  prop "type" i1 = prop "type" i2 →
  prop "gpibAddress" i1 = prop "gpibAddress" i2 →
  (∀ t s, render i1 t s = render i2 t s)
  ∧ (∀ evs p, runUi i1 p evs = runUi i2 p evs).
Proof.
  intros Hn Ht Ha. split.
  - intros t s. unfold render. by rewrite Hn, Ht, Ha.
  - induction evs as [| ev evs IH]; intros p; [reflexivity |].
    simpl. assert (stepUi i1 p ev = stepUi i2 p ev) as ->
      by (destruct ev as [[r | | r | r] | | | x y | | c]; reflexivity).
    destruct (stepUi i2 p ev) as [[p1 o1] |]; [| reflexivity].
    by rewrite IH.
Qed.

(** X16 at two instruments that differ in measurement type, range and
    resolution. *)
Lemma panel_uses_name_type_address_only_witness :
  let i1 : Obj := dmm1 in
  let i2 : Obj := <["range" := VStr "0.1"]> (<["measurementType" := VStr "RESISTANCE"]> (
                  <["resolution" := VStr "4.5"]> dmm1)) in
  prop "range" i1 ≠ prop "range" i2
  ∧ render i1 0 connectedState = render i2 0 connectedState.
Proof.
  intros i1 i2. split; [vm_compute; discriminate |].
  exact (proj1 (panel_uses_name_type_address_only i1 i2 eq_refl eq_refl eq_refl)
           0 connectedState).
Defined.

(** *** Accuracy of the display *)

(** X6.  The number a panel displays after a measurement or a refresh
    differs from the reading it was formatted from, the Number
    [Math.random() * 10], by at most half a thousandth (ties are rounded
    up). *)
Theorem displayed_reading_is_accurate (instrument : Obj) (r : Q) (s : PanelState) :
  unitDraw r → Connected s →
  currentValue (intervalCallback true r s)
    = currentValue (fst (handleMeasure instrument r s))
  ∧ ∃ q, parseFixed (currentValue (fst (handleMeasure instrument r s))) = Some q
       ∧ (q - (1 # 2000) <= readingProduct r)%Q
       ∧ (readingProduct r < q + (1 # 2000))%Q.
Proof.
  unfold Connected. intros Hr Hc. unfold handleMeasure. rewrite Hc. simpl.
  split; [reflexivity |].
  destruct (PanelFacts.readingProduct_range r Hr) as [H0 H10].
  pose proof (roundScaled_3_bounds (readingProduct r) H0 H10) as Hn.
  rewrite (PanelFacts.randomReading_render r Hr).
  destruct (renderFixed_parse 2 (roundScaled 3 (readingProduct r)))
    as (q & Hq & Heq); [lia |].
  exists q. split; [exact Hq |].
  change (10 ^ Z.of_nat 3) with 1000 in Heq.
  change (inject_Z 1000) with 1000%Q in Heq.
  unfold roundScaled in Heq. change (10 ^ Z.of_nat 3) with 1000 in Heq.
  change (inject_Z 1000) with 1000%Q in Heq.
  clear Hq Hn H0 H10. revert Heq. generalize (readingProduct r). intros x Heq.
  pose proof (Qfloor_le (x * 1000 + (1 # 2))) as Hle.
  pose proof (Qlt_floor (x * 1000 + (1 # 2))) as Hlt.
  rewrite inject_Z_plus in Hlt. change (inject_Z 1) with 1%Q in Hlt.
  set (n := inject_Z (Qfloor (x * 1000 + (1 # 2)))) in *. clearbody n.
  assert (q == n * (1 # 1000))%Q as Heq' by (rewrite Heq; field).
  clear Heq. split; lra.
Qed.

(** X6 at the draw 0.01875 on a connected session: the product is 0.1875
    and 0.188 is displayed. *)
Lemma displayed_reading_is_accurate_witness :
  let r := roundDouble (3 # 160) in
  unitDraw r ∧ Connected connectedState
  ∧ currentValue (fst (handleMeasure ∅ r connectedState)) = "0.188"
  ∧ ∃ q, parseFixed (currentValue (fst (handleMeasure ∅ r connectedState)))
         = Some q
       ∧ (q - (1 # 2000) <= readingProduct r)%Q.
Proof.
  intros r.
  assert (unitDraw r) as Hr by (split; vm_compute; congruence).
  split; [exact Hr |]. split; [reflexivity |].
  split; [vm_compute; reflexivity |].
  destruct (displayed_reading_is_accurate ∅ r connectedState
              Hr eq_refl) as (_ & q & Hq & Hlo & _).
  exists q. split; [exact Hq | exact Hlo].
Defined.

End PanelUiFacts.

(** ** The settings form *)

Module FormFacts.
Import Js JsFacts Panel Settings Client Form.

(** *** Loading an instrument into the form *)

Lemma orElse_idem (v d : Value) : orElse (orElse v d) d = orElse v d.
Proof.
  unfold orElse. destruct (truthy v) eqn:Hv; [by rewrite Hv |].
  by destruct (truthy d).
Qed.

Lemma loadFormData_props (i : Obj) :
  prop "name" (loadFormData i) = orElse (prop "name" i) (VStr "")
  ∧ prop "type" (loadFormData i) = orElse (prop "type" i) (VStr "34401A")
  ∧ prop "gpibAddress" (loadFormData i) = orElse (prop "gpibAddress" i) (VStr "22")
  ∧ prop "description" (loadFormData i) = orElse (prop "description" i) (VStr "")
  ∧ prop "autoConnect" (loadFormData i) = orElse (prop "autoConnect" i) (VBool false)
  ∧ prop "measurementType" (loadFormData i)
    = orElse (prop "measurementType" i) (VStr "DC_VOLTAGE")
  ∧ prop "range" (loadFormData i) = orElse (prop "range" i) (VStr "AUTO")
  ∧ prop "resolution" (loadFormData i) = orElse (prop "resolution" i) (VStr "6.5").
Proof.
  unfold loadFormData. repeat split; unfold prop at 1; by simplify_map_eq.
Qed.

Lemma dom_loadFormData (i : Obj) : dom (loadFormData i) = formFields.
Proof.
  unfold loadFormData, formFields. rewrite !dom_insert_L, dom_empty_L. set_solver.
Qed.

Lemma dom_defaultFormData : dom defaultFormData = formFields.
Proof.
  unfold defaultFormData, formFields. rewrite !dom_insert_L, dom_empty_L. set_solver.
Qed.

Lemma dom_formDataFor (instrument : option Obj) :
  dom (formDataFor instrument) = formFields.
Proof.
  destruct instrument; [apply dom_loadFormData | apply dom_defaultFormData].
Qed.

(** An option of a select is not the empty string, hence truthy. *)
Lemma oneOf_orElse (options : list string) (v d : Value) :
  existsb (String.eqb "") options = false →
  oneOf options v = true → orElse v d = v.
Proof.
  intros Hne Hv. destruct v as [| b | n | s | ms]; try discriminate.
  unfold oneOf in Hv. destruct s as [| c s]; [congruence | reflexivity].
Qed.

Lemma addressInRange_orElse (v : Value) :
  addressInRange v = true → addressInRange (orElse v (VStr "22")) = true.
Proof.
  intros Hv. unfold orElse. by destruct (truthy v).
Qed.

(** X7.  Loading an instrument into the form keeps every field that is
    truthy and replaces the others by the defaults of a new instrument;
    the result always has exactly the eight fields of the form, loading it
    again changes nothing, and an instrument that meets the constraints
    still meets them once loaded. *)
Theorem loadFormData_normalises (i : Obj) :
  dom (loadFormData i) = formFields
  ∧ loadFormData (loadFormData i) = loadFormData i
  ∧ (meetsConstraints i = true → meetsConstraints (loadFormData i) = true)
  ∧ (∀ k, k ∈ formFields → truthy (prop k i) = true →
          prop k (loadFormData i) = prop k i).
Proof.
  destruct (loadFormData_props i)
    as (Hn & Ht & Ha & Hd & Hc & Hm & Hr & Hs).
  split; [apply dom_loadFormData |]. split; [| split].
  - unfold loadFormData at 1.
    rewrite Hn, Ht, Ha, Hd, Hc, Hm, Hr, Hs, !orElse_idem. reflexivity.
  - unfold meetsConstraints. rewrite !andb_true_iff.
    intros ((((Haddr & Htype) & Hmeas) & Hrange) & Hres).
    rewrite Ha, Ht, Hm, Hr, Hs.
    rewrite (oneOf_orElse typeOptions _ _ eq_refl Htype).
    rewrite (oneOf_orElse measurementTypeOptions _ _ eq_refl Hmeas).
    rewrite (oneOf_orElse rangeOptions _ _ eq_refl Hrange).
    rewrite (oneOf_orElse resolutionOptions _ _ eq_refl Hres).
    by rewrite addressInRange_orElse.
  - intros k Hk Htruthy. unfold formFields in Hk.
    assert (∀ d, orElse (prop k i) d = prop k i) as Hkeep
      by (intros d; unfold orElse; by rewrite Htruthy).
    rewrite !elem_of_union, !elem_of_singleton in Hk.
    destruct Hk as [[[[[[[-> | ->] | ->] | ->] | ->] | ->] | ->] | ->];
      by rewrite ?Hn, ?Ht, ?Ha, ?Hd, ?Hc, ?Hm, ?Hr, ?Hs, Hkeep.
Qed.

(** X8.  A field of the instrument that is falsy (missing, false, the
    number 0, the empty text) is loaded as the default of a new
    instrument.  In particular an instrument whose address is the number
    0, a valid address, is shown with the address "22". *)
Theorem falsy_fields_are_loaded_as_defaults (i : Obj) (k : string) :
  k ∈ formFields → truthy (prop k i) = false →
  prop k (loadFormData i) = prop k defaultFormData
  ∧ (k = "gpibAddress" → prop k i = VNum 0 →
     addressInRange (prop k i) = true ∧ prop k (loadFormData i) = VStr "22").
Proof.
  intros Hk Hfalsy.
  destruct (loadFormData_props i) as (Hn & Ht & Ha & Hd & Hc & Hm & Hr & Hs).
  assert (∀ d, orElse (prop k i) d = d) as Hdrop
    by (intros d; unfold orElse; by rewrite Hfalsy).
  assert (prop k (loadFormData i) = prop k defaultFormData) as Hdef.
  { unfold formFields in Hk. rewrite !elem_of_union, !elem_of_singleton in Hk.
    destruct Hk as [[[[[[[-> | ->] | ->] | ->] | ->] | ->] | ->] | ->];
      by rewrite ?Hn, ?Ht, ?Ha, ?Hd, ?Hc, ?Hm, ?Hr, ?Hs, Hdrop. }
  split; [exact Hdef |].
  intros -> H0. rewrite Hdef, H0. by split.
Qed.

(** X8 at the stored record of the examples, its address set to 0. *)
Lemma falsy_fields_are_loaded_as_defaults_witness :
  let i : Obj := <["gpibAddress" := VNum 0]> storedDmm1 in
  "gpibAddress" ∈ formFields
  ∧ truthy (prop "gpibAddress" i) = false
  ∧ meetsConstraints i = true
  ∧ prop "gpibAddress" (loadFormData i) = VStr "22".
Proof.
  intros i.
  assert ("gpibAddress" ∈ formFields) as Hk by (unfold formFields; set_solver).
  split; [exact Hk |]. split; [reflexivity |]. split; [vm_compute; reflexivity |].
  exact (proj2 (proj2 (falsy_fields_are_loaded_as_defaults i "gpibAddress" Hk eq_refl)
                  eq_refl eq_refl)).
Defined.

(** *** Editing *)

Lemma prop_handleInputChange (e : ChangeTarget) (prev : Obj) (k : string) :
  prop k (handleInputChange e prev) = if decide (name e = k) then stored e else prop k prev.
Proof.
  unfold handleInputChange, prop, stored.
  destruct (decide (name e = k)) as [-> | Hne].
  - by rewrite lookup_insert_eq.
  - by rewrite lookup_insert_ne.
Qed.

(** What a change event of the form can be. *)
Lemma fromForm_cases (e : ChangeTarget) :
  fromForm e = true →
  stored e = VStr (value e)
  ∧ name e ∈ formFields ∧ name e ≠ "autoConnect"
  ∧ (name e = "type" → oneOf typeOptions (VStr (value e)) = true)
  ∧ (name e = "measurementType" → oneOf measurementTypeOptions (VStr (value e)) = true)
  ∧ (name e = "range" → oneOf rangeOptions (VStr (value e)) = true)
  ∧ (name e = "resolution" → oneOf resolutionOptions (VStr (value e)) = true).
Proof.
  unfold fromForm, controls, changeOf, stored, formFields. cbn [existsb fst snd domType].
  rewrite !orb_true_iff, !andb_true_iff, !String.eqb_eq.
  intros H.
  repeat (destruct H as [[[Hn Ht] Hv] | H];
          [ rewrite Hn, Ht; (split; [reflexivity |]); (split; [set_solver |]);
            (split; [discriminate |]); repeat split; (try discriminate);
            by intros _
          | ]).
  discriminate.
Qed.

Lemma edited_app (es es' : list ChangeTarget) (formData : Obj) :
  edited (es ++ es') formData = edited es' (edited es formData).
Proof. unfold edited. apply foldl_app. Qed.

Lemma enumerationsHold_change (e : ChangeTarget) (prev : Obj) :
  fromForm e = true → enumerationsHold prev = true →
  enumerationsHold (handleInputChange e prev) = true.
Proof.
  intros He. destruct (fromForm_cases e He) as (_ & _ & _ & H1 & H2 & H3 & H4).
  unfold enumerationsHold. rewrite !andb_true_iff, !prop_handleInputChange.
  intros (((P1 & P2) & P3) & P4).
  repeat split; case_decide; auto.
  - rewrite (proj1 (fromForm_cases e He)). auto.
  - rewrite (proj1 (fromForm_cases e He)). auto.
  - rewrite (proj1 (fromForm_cases e He)). auto.
  - rewrite (proj1 (fromForm_cases e He)). auto.
Qed.

Lemma dom_handleInputChange (e : ChangeTarget) (prev : Obj) :
  fromForm e = true → dom prev = formFields →
  dom (handleInputChange e prev) = formFields.
Proof.
  intros He Hd. destruct (fromForm_cases e He) as (_ & Hin & _).
  unfold handleInputChange. rewrite dom_insert_L, Hd.
  apply subseteq_union_1_L. by apply singleton_subseteq_l.
Qed.

Lemma record_keys_not_form_fields :
  ("id" ∉ formFields) ∧ ("createdAt" ∉ formFields) ∧ ("updatedAt" ∉ formFields).
Proof.
  repeat split; apply (bool_decide_eq_true_1 _); vm_compute; reflexivity.
Qed.

(** X9.  Whatever instrument the form was opened for and whatever the
    user changes through its controls, the payload the form submits has
    exactly the eight fields of the form, each change stored as text; it
    never carries an id, a createdAt or an updatedAt, and autoConnect,
    for which the form renders no control, keeps the value it was loaded
    with.  So when creation falls back, the id of the synthesized record
    is always the clock reading. *)
Theorem submitted_payload_has_the_form_fields
    (instrument : option Obj) (es : list ChangeTarget) :
  Forall (fun e => fromForm e = true) es →
  let payload := edited es (formDataFor instrument) in
  dom payload = formFields
  ∧ payload !! "id" = None ∧ payload !! "createdAt" = None
  ∧ payload !! "updatedAt" = None
  ∧ prop "autoConnect" payload = prop "autoConnect" (formDataFor instrument)
  ∧ ∀ (http : Server) (c : Clock) (error : AxiosError),
      http (createRequest payload) = Failure error → demoFallback error = true →
      ∃ o, fst (addInstrument http payload c) = Resolved (DObj o)
         ∧ o !! "id" = Some (VNum (c 0%nat)).
Proof.
  intros Hes payload.
  assert (dom payload = formFields
          ∧ prop "autoConnect" payload = prop "autoConnect" (formDataFor instrument))
    as [Hdom Hauto].
  { unfold payload. clear payload.
    induction es as [| e es IH] using rev_ind.
    - split; [apply dom_formDataFor | reflexivity].
    - apply Forall_app in Hes as [Hes He]. apply Forall_inv in He.
      destruct (IH Hes) as [IHd IHa]. rewrite edited_app. simpl.
      split; [by apply dom_handleInputChange |].
      rewrite prop_handleInputChange.
      destruct (fromForm_cases e He) as (_ & _ & Hne & _).
      by rewrite decide_False. }
  assert (∀ k, k ∉ formFields → payload !! k = None) as Hnone.
  { intros k Hk. apply not_elem_of_dom. by rewrite Hdom. }
  destruct record_keys_not_form_fields as (Kid & Kcreated & Kupdated).
  assert (payload !! "id" = None) as Hid by (by apply Hnone).
  split; [exact Hdom |]. split; [exact Hid |].
  split; [by apply Hnone |]. split; [by apply Hnone |].
  split; [exact Hauto |].
  intros http c error Hreply Hfb.
  exists (synthesizedNew payload c). split.
  - by rewrite ClientFacts.addInstrument_outcome, Hreply, Hfb.
  - destruct (ClientFacts.synthesizedNew_lookup payload c) as (H1 & _).
    by rewrite H1, Hid.
Qed.

(** X9 at a new instrument whose name and address are typed in. *)
Lemma submitted_payload_has_the_form_fields_witness :
  let es := [mkChangeTarget "name" "DMM1" "text" false;
             mkChangeTarget "gpibAddress" "7" "number" false] in
  Forall (fun e => fromForm e = true) es
  ∧ prop "name" (edited es (formDataFor None)) = VStr "DMM1"
  ∧ edited es (formDataFor None) !! "id" = None.
Proof.
  intros es.
  assert (Forall (fun e => fromForm e = true) es) as Hes
    by (repeat constructor).
  split; [exact Hes |]. split; [vm_compute; reflexivity |].
  exact (proj1 (proj2 (submitted_payload_has_the_form_fields None es Hes))).
Defined.

(** X10.  The four fields that are set through a select stay inside their
    closed enumerations under every change the form can make; for a new
    instrument they start inside, so the only constraint its payload can
    violate is the address range. *)
Theorem selects_keep_the_enumerations
    (instrument : option Obj) (es : list ChangeTarget) :
  Forall (fun e => fromForm e = true) es →
  enumerationsHold (formDataFor instrument) = true →
  let payload := edited es (formDataFor instrument) in
  enumerationsHold payload = true
  ∧ meetsConstraints payload = addressInRange (prop "gpibAddress" payload)
  ∧ enumerationsHold (formDataFor None) = true.
Proof.
  intros Hes Hstart payload.
  assert (enumerationsHold payload = true) as Henum.
  { unfold payload. clear payload.
    induction es as [| e es IH] using rev_ind; [exact Hstart |].
    apply Forall_app in Hes as [Hes He]. apply Forall_inv in He.
    rewrite edited_app. simpl. apply enumerationsHold_change; auto. }
  split; [exact Henum |]. split; [| reflexivity].
  unfold meetsConstraints. unfold enumerationsHold in Henum.
  apply andb_prop in Henum as [Henum H4].
  apply andb_prop in Henum as [Henum H3].
  apply andb_prop in Henum as [H1 H2].
  rewrite H1, H2, H3, H4. by rewrite !andb_true_r.
Qed.

(** X10 at a new instrument whose range is set to "10" and whose address
    is typed as 99: the enumerations hold, the constraints do not. *)
Lemma selects_keep_the_enumerations_witness :
  let es := [mkChangeTarget "range" "10" "select-one" false;
             mkChangeTarget "gpibAddress" "99" "number" false] in
  Forall (fun e => fromForm e = true) es
  ∧ enumerationsHold (edited es (formDataFor None)) = true
  ∧ meetsConstraints (edited es (formDataFor None)) = false.
Proof.
  intros es.
  assert (Forall (fun e => fromForm e = true) es) as Hes
    by (repeat constructor).
  split; [exact Hes |].
  destruct (selects_keep_the_enumerations None es Hes eq_refl) as (H1 & H2 & _).
  split; [exact H1 |]. rewrite H2. vm_compute. reflexivity.
Defined.

End FormFacts.

(** ** The list query and the application *)

Module AppFacts.
Import Js Panel Settings Client Form Query App.

(** *** Saving and deleting *)

Lemma submitSettings_closes
    (update : Value → Obj → Timed (Promise Data))
    (add : Obj → Timed (Promise Data)) (formData : Obj) (w : World) :
  fst (submitSettings update add formData w) = (false, [])
  ∧ appState (snd (submitSettings update add formData w)) = mkAppState false None.
Proof.
  unfold submitSettings, handleSubmit, handleSaveInstrument.
  destruct (selectedInstrument (appState w)) as [selected |].
  - destruct (update (prop "id" selected) formData (clock w)) as [[d | e] c]; by simpl.
  - destruct (add formData (clock w)) as [[d | e] c]; by simpl.
Qed.

(** X11.  Submitting the settings form always closes it.  The App's save
    handler catches every failure of the mutation itself, so the form's
    own [catch] is never entered: whatever the mutation functions do, the
    form is closed, the selection cleared and the loading flag reset, the
    form's "Failed to save instrument settings" is never shown, and
    exactly one toast is added, the App's success message when the
    mutation resolved and "Failed to save instrument" when it was
    rejected. *)
Theorem submitting_always_closes_the_form
    (update : Value → Obj → Timed (Promise Data))
    (add : Obj → Timed (Promise Data)) (formData : Obj) (w : World) :
  let result := submitSettings update add formData w in
  let mutation :=
    match selectedInstrument (appState w) with
    | Some selected => fst (update (prop "id" selected) formData (clock w))
    | None => fst (add formData (clock w))
    end in
  fst result = (false, [])
  ∧ appState (snd result) = mkAppState false None
  ∧ shown (snd result)
    = shown w ++
      [if isResolved mutation then
         toast_success (match selectedInstrument (appState w) with
                        | Some _ => "Instrument updated successfully!"
                        | None => "Instrument added successfully!"
                        end)
       else toast_error "Failed to save instrument"].
Proof.
  unfold submitSettings, handleSubmit, handleSaveInstrument.
  destruct (selectedInstrument (appState w)) as [selected |].
  - destruct (update (prop "id" selected) formData (clock w)) as [[d | e] c]; by simpl.
  - destruct (add formData (clock w)) as [[d | e] c]; by simpl.
Qed.

(** X12.  Creating an instrument from the App with the hook of
    [useInstrumentActions]: the App reports success exactly when the
    server answered with a record or the request failed with ERR_NETWORK
    or 404; on every other failure (a validation failure of the server
    included) it shows "Failed to save instrument", and the form is
    closed all the same. *)
Theorem creating_reports_by_the_reply (http : Server) (formData : Obj) (w : World) :
  selectedInstrument (appState w) = None →
  let result :=
    submitSettings (fun _ _ => mret (Resolved DNone)) (addInstrument http) formData w in
  shown (snd result)
    = shown w ++
      [if mutationResolves (http (createRequest formData))
       then toast_success "Instrument added successfully!"
       else toast_error "Failed to save instrument"]
  ∧ appState (snd result) = mkAppState false None.
Proof.
  intros Hnone result.
  pose proof (ClientFacts.addInstrument_outcome http formData (clock w)) as Hout.
  unfold result, submitSettings, handleSubmit, handleSaveInstrument.
  rewrite Hnone.
  destruct (addInstrument http formData (clock w)) as [r c] eqn:Hadd.
  simpl in Hout. rewrite Hout. unfold mutationResolves.
  destruct (http (createRequest formData)) as [d | e]; [by simpl |].
  by destruct (demoFallback e).
Qed.

(** X12 at a server that answers 400: the failure toast, the form closed. *)
Lemma creating_reports_by_the_reply_witness :
  let w := mkWorld (mkAppState true None) tickingClock [] in
  selectedInstrument (appState w) = None
  ∧ shown (snd (submitSettings (fun _ _ => mret (Resolved DNone))
                              (addInstrument (answers 400)) dmm1 w))
    = [toast_error "Failed to save instrument"].
Proof.
  intros w. split; [reflexivity |].
  exact (proj1 (creating_reports_by_the_reply (answers 400) dmm1 w eq_refl)).
Defined.

(** X13.  Deleting from the App with the hook of [useInstrumentActions]:
    the handler never fails and leaves the App's state alone; it shows
    "Instrument deleted successfully!" whenever the server answered or the
    request failed with ERR_NETWORK or 404 (so also for an id the server
    does not know), and "Failed to delete instrument" on every other
    failure. *)
Theorem deleting_reports_by_the_reply (http : Server) (id : Value) (w : World) :
  let result := handleDeleteInstrument (deleteInstrument http) id w in
  fst result = Resolved tt
  ∧ appState (snd result) = appState w
  ∧ shown (snd result)
    = shown w ++
      [if mutationResolves (http (deleteRequest id))
       then toast_success "Instrument deleted successfully!"
       else toast_error "Failed to delete instrument"].
Proof.
  intros result.
  pose proof (ClientFacts.deleteInstrument_outcome http id (clock w)) as Hout.
  unfold result, handleDeleteInstrument.
  destruct (deleteInstrument http id (clock w)) as [r c] eqn:Hdel.
  simpl in Hout. rewrite Hout. unfold mutationResolves.
  destruct (http (deleteRequest id)) as [d | e]; [by simpl |].
  by destruct (demoFallback e).
Qed.

(** *** The selection *)

Lemma stepApp_closed_unselected update add w ev :
  (showSettings (appState w) = false → selectedInstrument (appState w) = None) →
  showSettings (appState (stepApp update add w ev)) = false →
  selectedInstrument (appState (stepApp update add w ev)) = None.
Proof.
  intros Inv. destruct ev as [| | i | | formData]; simpl; try done.
  intros _.
  by destruct (submitSettings_closes update add formData w) as [_ ->].
Qed.

(** X17.  Whenever the settings form is closed, no instrument is
    selected: closing and saving clear the selection.  So the header's
    Settings button, which only opens the form, always opens it for a new
    instrument, exactly as the Add Instrument button does. *)
Theorem settings_button_adds (update : Value → Obj → Timed (Promise Data))
    (add : Obj → Timed (Promise Data)) (c : Clock) (evs : list AppEvent) :
  let w := runApp update add (mkWorld initialApp c []) evs in
  (showSettings (appState w) = false → selectedInstrument (appState w) = None)
  ∧ (showSettings (appState w) = false →
     stepApp update add w ClickSettings = stepApp update add w ClickAdd).
Proof.
  intros w.
  assert (showSettings (appState w) = false → selectedInstrument (appState w) = None)
    as Inv.
  { unfold w. clear w. induction evs as [| ev evs IH] using rev_ind; [done |].
    unfold runApp. rewrite foldl_app. simpl.
    by apply stepApp_closed_unselected. }
  split; [exact Inv |].
  intros Hclosed. simpl. unfold inApp, openSettings, handleAddInstrument.
  by rewrite (Inv Hclosed).
Qed.

(** *** What is rendered *)

(** X14.  The App reads a property [instruments] of what [useInstruments]
    returns.  For every result object without a property of that name
    (the result of [useQuery] holds the list under [data]) the App shows
    the loading state while [isLoading] is truthy and the empty state
    otherwise: it never renders the grid, whatever list the query
    fetched. *)
Theorem app_never_renders_the_grid (result : gmap string Field) :
  result !! "instruments" = None →
  appView result
  = (if from_option fieldTruthy false (result !! "isLoading")
     then LoadingView else EmptyStateView)
  ∧ ∀ l, appView result ≠ GridView l.
Proof.
  intros Hnone. unfold appView, instrumentsOf. rewrite Hnone.
  split; [reflexivity |]. intros l.
  by destruct (from_option fieldTruthy false (result !! "isLoading")).
Qed.

(** X14 at a query that has fetched the fallback list of one instrument. *)
Lemma app_never_renders_the_grid_witness :
  let result := resultOf (DList [mockInstrument 1000 1000]) false None in
  result !! "instruments" = None
  ∧ result !! "data" = Some (FData (DList [mockInstrument 1000 1000]))
  ∧ appView result = EmptyStateView.
Proof.
  intros result.
  assert (result !! "instruments" = None) as Hnone by reflexivity.
  split; [exact Hnone |]. split; [reflexivity |].
  rewrite (proj1 (app_never_renders_the_grid result Hnone)). reflexivity.
Defined.

(** *** The list in demo mode *)

Lemma fetchInstruments_outcome (http : Server) (c : Clock) :
  fetchInstruments http c
  = match http listRequest with
    | Response data => (Resolved data, c)
    | Failure error =>
        if demoFallback error
        then (Resolved (DList [mockInstrument (c 0%nat) (c 1%nat)]),
              fun n => c (S (S n)))
        else (Rejected error, c)
    end.
Proof.
  unfold fetchInstruments.
  destruct (http listRequest) as [d | e]; [done |].
  by destruct (demoFallback e).
Qed.

(** X15.  With the server out of reach (every request fails with an error
    the fallbacks swallow) the list is always the one built-in instrument
    with id 1, which meets the constraints of the form, whatever was done
    before: an instrument just created with success is not in the list
    fetched next (its id is the clock reading), and the listed instrument
    is still listed after it was deleted with success. *)
Theorem demo_list_ignores_mutations
    (http : Server) (payload : Obj) (c : Clock) :
  demoMode http → payload !! "id" = None → c 0%nat ≠ 1 →
  (∃ o l c1,
      addInstrument http payload c = (Resolved (DObj o), c1)
      ∧ fst (fetchInstruments http c1) = Resolved (DList l)
      ∧ idsOf (DList l) = [VNum 1]
      ∧ forallb meetsConstraints l = true
      ∧ prop "id" o ∉ idsOf (DList l))
  ∧ (∃ l c1,
      deleteInstrument http (VNum 1) c = (Resolved (VNum 1), c1)
      ∧ fst (fetchInstruments http c1) = Resolved (DList l)
      ∧ VNum 1 ∈ idsOf (DList l)).
Proof.
  intros Hdemo Hid Hclock.
  destruct (Hdemo listRequest) as (eL & HL & HfL).
  destruct (Hdemo (createRequest payload)) as (eA & HA & HfA).
  destruct (Hdemo (deleteRequest (VNum 1))) as (eD & HD & HfD).
  split.
  - unfold addInstrument. rewrite HA, HfA. simpl.
    eexists. eexists. eexists. split; [reflexivity |].
    rewrite fetchInstruments_outcome, HL, HfL. simpl.
    split; [reflexivity |]. split; [reflexivity |]. split; [reflexivity |].
    fold (synthesizedNew payload c).
    destruct (ClientFacts.synthesizedNew_lookup payload c) as (H1 & _).
    unfold prop at 1. rewrite H1, Hid. simpl.
    intros Hin. apply list_elem_of_singleton in Hin.
    injection Hin as Hin. by apply Hclock.
  - unfold deleteInstrument. rewrite HD, HfD. simpl.
    eexists. eexists. split; [reflexivity |].
    rewrite fetchInstruments_outcome, HL, HfL. simpl.
    split; [reflexivity |]. apply list_elem_of_singleton. reflexivity.
Qed.

(** X15 at the server that cannot be reached. *)
Lemma demo_list_ignores_mutations_witness :
  demoMode unreachable
  ∧ idsOf (DList [mockInstrument 1001 1002]) = [VNum 1]
  ∧ ∃ o c1, addInstrument unreachable dmm1 tickingClock = (Resolved (DObj o), c1)
          ∧ prop "id" o = VNum 1000.
Proof.
  assert (demoMode unreachable) as Hdemo.
  { intros request. eexists. split; reflexivity. }
  split; [exact Hdemo |]. split; [reflexivity |].
  assert (tickingClock 0%nat ≠ 1) as Hclock by (vm_compute; discriminate).
  destruct (demo_list_ignores_mutations unreachable dmm1 tickingClock
              Hdemo eq_refl Hclock) as ((o & l & c1 & Hadd & _) & _).
  exists o, c1. split; [exact Hadd |].
  unfold addInstrument in Hadd. simpl in Hadd. inversion Hadd; subst.
  vm_compute. reflexivity.
Defined.

End AppFacts.
